(** * next-plugin-preval: the build-time evaluation loader ([src/loader.ts])

    A shallow embedding of [_prevalLoader] and of the helpers around it,
    together with the part of the JavaScript run time the loader leans on
    (truthiness, string conversion, [JSON.stringify], [JSON.parse], string
    literals), followed by the properties of the loader.

    Conventions of the embedding.
    - A JavaScript string is a [string] that holds its code units one
      after the other, each in the bytes UTF-8 gives a code point of that
      value: one byte below 80, two below 800, three from there on.  A
      surrogate is three bytes (ED, A0..BF, 80..BF), a character beyond
      the basic plane is its two surrogates, and joining two strings joins
      their bytes.  Text that is plain ASCII reads as itself.
    - A number is [NaN], an infinity, or a double: an integer [Int z], the
      negative zero, or [Fraction negative m e] for [m / 2^e]; the terms
      that are doubles are the [representable] ones.
    - A record lists the own enumerable members of an object in the order
      in which the language enumerates them; members are data properties
      (an accessor would run code of the module).
    - An object graph is written as the tree a depth-first walk sees:
      [VCycle k] stands for a reference back to the object [k] levels up.
    - A promise (or any other thenable) is given by the way it settles.
    - [loadConfig] and [createMatchPath] may throw, and so may what the
      source guards with [try]; [getOptions] and the callback of webpack
      may throw as well.  [register], [revert] and [console.error] are
      handed arguments of the types they declare and return normally.
    - What the loader imports and what it evaluates is a [host], the
      module cache of the process included: what [requireFromString]
      gives is what the call gives in the process as it stands.  What the
      loader changes (the transform registration, the lines it writes to
      the error stream) is a [world], threaded through a
      state-and-exception monad. *)

From Stdlib Require Import String Ascii List ZArith NArith Bool Lia.
From Stdlib Require Import DecimalString DecimalN DecimalFacts.
Import ListNotations.
Open Scope string_scope.

Set Warnings "-register-all".

(** ** JavaScript values *)

(** A number: [Int z] is the integer [z], [Fraction negative m e] is
    [m / 2^e] with [m] odd, signed; the other finite doubles are integers,
    apart from the zero that carries a minus sign. *)
Inductive number : Type :=
| NaN
| Infinity (negative : bool)
| Int (z : Z)
| NegativeZero
| Fraction (negative : bool) (m e : positive).

Inductive error_class : Type :=
| PrevalError
| SerializationFailure
| NativeError (name : string).

Inductive jsval : Type :=
| VUndefined
| VNull
| VBool (b : bool)
| VNum (n : number)
| VStr (s : string)
| VSymbol (description : string)
| VFunction (source : string)
| VArray (items : list jsval)
| VRecord (props : list (string * jsval))
| VError (cls : error_class) (message : string) (stack : option string)
| VPromise (fulfilled : bool) (settled : jsval)
| VCycle (up : nat).

(** The induction principle that reaches inside arrays and records. *)
Section JsvalInd.
Variable P : jsval -> Prop.
Hypothesis Hundef : P VUndefined.
Hypothesis Hnull : P VNull.
Hypothesis Hbool : forall b, P (VBool b).
Hypothesis Hnum : forall n, P (VNum n).
Hypothesis Hstr : forall s, P (VStr s).
Hypothesis Hsym : forall d, P (VSymbol d).
Hypothesis Hfun : forall s, P (VFunction s).
Hypothesis Harr : forall l, Forall P l -> P (VArray l).
Hypothesis Hrec : forall l, Forall (fun kv => P (snd kv)) l -> P (VRecord l).
Hypothesis Herr : forall c m st, P (VError c m st).
Hypothesis Hprom : forall b v, P v -> P (VPromise b v).
Hypothesis Hcyc : forall k, P (VCycle k).

Fixpoint jsval_rect' (v : jsval) : P v :=
  match v with
  | VUndefined => Hundef
  | VNull => Hnull
  | VBool b => Hbool b
  | VNum n => Hnum n
  | VStr s => Hstr s
  | VSymbol d => Hsym d
  | VFunction s => Hfun s
  | VArray l =>
      Harr l ((fix go (l : list jsval) : Forall P l :=
                 match l with
                 | [] => Forall_nil _
                 | x :: l' => Forall_cons x (jsval_rect' x) (go l')
                 end) l)
  | VRecord l =>
      Hrec l ((fix go (l : list (string * jsval))
                 : Forall (fun kv => P (snd kv)) l :=
                 match l with
                 | [] => Forall_nil _
                 | kv :: l' => Forall_cons kv (jsval_rect' (snd kv)) (go l')
                 end) l)
  | VError c m st => Herr c m st
  | VPromise b v => Hprom b v (jsval_rect' v)
  | VCycle k => Hcyc k
  end.
End JsvalInd.

(** Outcome of an evaluation: a value, or a thrown value. *)
Inductive completion (A : Type) : Type :=
| Normal (a : A)
| Throw (e : jsval).
Arguments Normal {A} a.
Arguments Throw {A} e.

(** ** Primitive operations of the language *)

(** [typeof v]. *)
Definition typeof (v : jsval) : string :=
  match v with
  | VUndefined => "undefined"
  | VNull => "object"
  | VBool _ => "boolean"
  | VNum _ => "number"
  | VStr _ => "string"
  | VSymbol _ => "symbol"
  | VFunction _ => "function"
  | VArray _ | VRecord _ | VError _ _ _ | VPromise _ _ | VCycle _ => "object"
  end.

(** [!!v]. *)
Definition truthy (v : jsval) : bool :=
  match v with
  | VUndefined | VNull => false
  | VBool b => b
  | VNum NaN => false
  | VNum (Int z) => negb (Z.eqb z 0)
  | VNum NegativeZero => false
  | VNum (Infinity _) => true
  | VNum (Fraction _ _ _) => true
  | VStr s => negb (String.eqb s EmptyString)
  | _ => true
  end.

Definition Array_isArray (v : jsval) : bool :=
  match v with VArray _ => true | _ => false end.

Fixpoint lookup (k : string) (props : list (string * jsval)) : option jsval :=
  match props with
  | [] => None
  | (k', v) :: rest => if String.eqb k k' then Some v else lookup k rest
  end.

Definition Object_prototype_keys : list string :=
  ["constructor"; "hasOwnProperty"; "isPrototypeOf"; "propertyIsEnumerable";
   "toLocaleString"; "toString"; "valueOf"; "__proto__"].

(** [key in v] for an object [v]; the loader asks it of records only. *)
Definition has_property (key : string) (v : jsval) : bool :=
  match v with
  | VRecord props =>
      match lookup key props with
      | Some _ => true
      | None => existsb (String.eqb key) Object_prototype_keys
      end
  | VError _ _ st =>
      if String.eqb key "stack" then match st with Some _ => true | None => false end
      else String.eqb key "message" || String.eqb key "name"
  | VPromise _ _ => String.eqb key "then"
  | _ => false
  end.

(** The name an error class prints under.  [PrevalError] is declared as
    [class PrevalError extends Error {}] and inherits the name "Error". *)
Definition class_name (c : error_class) : string :=
  match c with
  | PrevalError => "Error"
  | SerializationFailure => "Error"
  | NativeError n => n
  end.

Definition TypeError (message : string) : jsval :=
  VError (NativeError "TypeError") message (Some ("TypeError: " ++ message)).

(** [v.key]: reading a property throws on [null] and [undefined]. *)
Definition get (v : jsval) (key : string) : completion jsval :=
  match v with
  | VUndefined =>
      Throw (TypeError ("Cannot read properties of undefined (reading '" ++ key ++ "')"))
  | VNull =>
      Throw (TypeError ("Cannot read properties of null (reading '" ++ key ++ "')"))
  | VRecord props =>
      Normal (match lookup key props with Some x => x | None => VUndefined end)
  | VError c m st =>
      if String.eqb key "stack" then
        Normal (match st with Some s => VStr s | None => VUndefined end)
      else if String.eqb key "message" then Normal (VStr m)
      else if String.eqb key "name" then Normal (VStr (class_name c))
      else Normal VUndefined
  | _ => Normal VUndefined
  end.

(** The decimal digits of a natural number. *)
Definition digits (n : N) : string := NilEmpty.string_of_uint (N.to_uint n).

(** *** Numbers as doubles

    The finite numbers are the doubles: a significand of at most 53 bits
    times a power of two from [2^-1074] to [2^971].  All arithmetic here
    is exact, on integers. *)

Definition number_eqb (a b : number) : bool :=
  match a, b with
  | NaN, NaN => true
  | Infinity x, Infinity y => Bool.eqb x y
  | Int x, Int y => Z.eqb x y
  | NegativeZero, NegativeZero => true
  | Fraction x m e, Fraction y m' e' =>
      Bool.eqb x y && Pos.eqb m m' && Pos.eqb e e'
  | _, _ => false
  end.

(** The zero of either sign. *)
Definition zero (negative : bool) : number :=
  if negative then NegativeZero else Int 0.

(** The odd part of [m] and the number of factors two taken off. *)
Fixpoint odd_part (m : positive) : positive * Z :=
  match m with
  | xO m' => let (o, t) := odd_part m' in (o, t + 1)%Z
  | _ => (m, 0%Z)
  end.

(** The number [m * 2^e], signed. *)
Definition of_binary (negative : bool) (m : positive) (e : Z) : number :=
  let (o, t) := odd_part m in
  let e' := (e + t)%Z in
  if (0 <=? e')%Z then
    Int (if negative then - (Zpos o * 2 ^ e') else Zpos o * 2 ^ e')%Z
  else Fraction negative o (Z.to_pos (- e')).

(** The double nearest to [p/q], ties to the even significand, as the
    language rounds the value of a numeric literal.  [E] is the binary
    exponent of [p/q], [e] the exponent of the last bit kept, [m] the
    significand after rounding; what rounds beyond the largest double
    is an infinity, what rounds to nothing a zero. *)
Definition nearest_double (negative : bool) (p q : positive) : number :=
  (let b := Z.log2 (Zpos p) - Z.log2 (Zpos q) in
   let reaches :=
     if 0 <=? b then Zpos q * 2 ^ b <=? Zpos p
     else Zpos q <=? Zpos p * 2 ^ (- b) in
   let E := if reaches then b else b - 1 in
   let e := Z.max (E - 52) (-1074) in
   let N := if 0 <=? e then Zpos p else Zpos p * 2 ^ (- e) in
   let D := if 0 <=? e then Zpos q * 2 ^ e else Zpos q in
   let quo := N / D in
   let r := N mod D in
   let m :=
     if 2 * r <? D then quo
     else if D <? 2 * r then quo + 1
     else if Z.even quo then quo else quo + 1 in
   match m with
   | Zpos m' =>
       if (971 <? e) || ((e =? 971) && (2 ^ 53 <=? m)) then Infinity negative
       else of_binary negative m' e
   | _ => zero negative
   end)%Z.

(** The number that the decimal [M * 10^E] denotes, with its sign. *)
Definition decimal_to_number (negative : bool) (M : N) (E : Z) : number :=
  match M with
  | N0 => zero negative
  | Npos s =>
      if (0 <=? E)%Z then nearest_double negative (s * Z.to_pos (10 ^ E)) 1
      else nearest_double negative s (Z.to_pos (10 ^ (- E)))
  end.

(** The sign and the exact decimal of a finite number that is not zero. *)
Definition exact_decimal (n : number) : option (bool * N * Z) :=
  match n with
  | Int 0 => None
  | Int z => Some ((z <? 0)%Z, Z.abs_N z, 0%Z)
  | Fraction negative m e =>
      Some (negative, Npos (m * 5 ^ e), Zneg e)
  | _ => None
  end.

(** A term stands for a double when rounding its exact value gives the
    term back: the significand is odd and has at most 53 bits, and the
    value lies within the range of the exponents. *)
Definition representable (n : number) : bool :=
  match exact_decimal n with
  | Some (negative, M, E) => number_eqb (decimal_to_number negative M E) n
  | None => true
  end.

(** The least [t], from the one given, with [q <= p * 10^t]; [scaled]
    is [p * 10^t]. *)
Fixpoint first_scale (fuel : nat) (scaled q : Z) (t : Z) : Z :=
  match fuel with
  | O => t
  | S fuel' =>
      if (q <=? scaled)%Z then t
      else first_scale fuel' (scaled * 10)%Z q (t + 1)%Z
  end.

(** The [n] with [10^(n-1) <= p/q < 10^n]. *)
Definition decimal_point (p q : positive) : Z :=
  if (Zpos q <=? Zpos p)%Z then
    Z.of_nat (String.length (digits (Z.to_N (Zpos p / Zpos q))))
  else (1 - first_scale 400 (Zpos p * 10) (Zpos q) 1)%Z.

(** [s * 10^j] with the final zeros of [s] moved into the exponent. *)
Fixpoint strip_zeros (fuel : nat) (s : N) (j : Z) : N * Z :=
  match fuel with
  | O => (s, j)
  | S fuel' =>
      if (0 <? s)%N && (s mod 10 =? 0)%N
      then strip_zeros fuel' (s / 10)%N (j + 1)%Z
      else (s, j)
  end.

(** Whether the decimal [s * 10^j] denotes [x]; [s] without its final
    zeros. *)
Definition denotes (negative : bool) (x : number) (s : N) (j : Z)
  : option (N * Z) :=
  let (s', j') := strip_zeros 40 s j in
  if (0 <? s')%N && number_eqb (decimal_to_number negative s' j') x
  then Some (s', j') else None.

(** The candidates with [k] digits: the decimals just below and just
    above [p/q]; of two that denote [x], the closer one. *)
Definition with_digits (negative : bool) (x : number) (p q : positive)
  (n k : Z) : option (N * Z) :=
  (let j := n - k in
   let scaled_p := if 0 <=? j then Zpos p else Zpos p * 10 ^ (- j) in
   let scaled_q := if 0 <=? j then Zpos q * 10 ^ j else Zpos q in
   let lo := scaled_p / scaled_q in
   let hi := lo + 1 in
   let below := scaled_p - lo * scaled_q in
   let above := hi * scaled_q - scaled_p in
   match denotes negative x (Z.to_N lo) j, denotes negative x (Z.to_N hi) j with
   | Some a, Some b =>
       if below <? above then Some a
       else if above <? below then Some b
       else if Z.even lo then Some a else Some b
   | Some a, None => Some a
   | None, Some b => Some b
   | None, None => None
   end)%Z.

(** The first decimal that denotes [x], trying [k], [k + 1], ... digits. *)
Fixpoint fewest_digits (fuel : nat) (negative : bool) (x : number)
  (p q : positive) (n k : Z) : option (N * Z) :=
  match fuel with
  | O => None
  | S fuel' =>
      match with_digits negative x p q n k with
      | Some found => Some found
      | None => fewest_digits fuel' negative x p q n (k + 1)%Z
      end
  end.

(** The digits [s] and the exponent [j] that [Number::toString] prints
    for a finite number that is not zero: the fewest digits that denote
    the number and, among those, the decimal closest to it.  Seventeen
    digits denote any double; the exact decimal stands in otherwise. *)
Definition shortest_decimal (x : number) : option (bool * N * Z) :=
  match exact_decimal x with
  | None => None
  | Some (negative, M, E) =>
      match M with
      | N0 => None
      | Npos s =>
          let q := Z.to_pos (10 ^ (- E)) in
          match fewest_digits 17 negative x s q (decimal_point s q) 1 with
          | Some (s', j') => Some (negative, s', j')
          | None => Some (negative, M, E)
          end
      end
  end.

Fixpoint zeros (n : nat) : string :=
  match n with
  | O => EmptyString
  | S n' => String "0" (zeros n')
  end.

Fixpoint split_at (n : nat) (s : string) : string * string :=
  match n, s with
  | S n', String c s' => let (a, b) := split_at n' s' in (String c a, b)
  | _, _ => (EmptyString, s)
  end.

(** The text of the decimal [s * 10^j], as [Number::toString] lays it
    out: [k] digits, the decimal point after the [n]-th. *)
Definition format_decimal (s : N) (j : Z) : string :=
  (let ds := digits s in
   let k := Z.of_nat (String.length ds) in
   let n := k + j in
   if (k <=? n) && (n <=? 21) then ds ++ zeros (Z.to_nat (n - k))
   else if (0 <? n) && (n <=? 21) then
     let (a, b) := split_at (Z.to_nat n) ds in a ++ "." ++ b
   else if (-6 <? n) && (n <=? 0) then
     "0." ++ zeros (Z.to_nat (- n)) ++ ds
   else
     let e := n - 1 in
     let exponent :=
       "e" ++ (if e <? 0 then "-" else "+") ++ digits (Z.abs_N e) in
     match ds with
     | String d EmptyString => String d exponent
     | String d more => String d ("." ++ more ++ exponent)
     | EmptyString => EmptyString
     end)%Z%string.

(** [Number::toString], radix 10: both zeros print as [0]. *)
Definition Number_toString (n : number) : string :=
  match n with
  | NaN => "NaN"
  | Infinity false => "Infinity"
  | Infinity true => "-Infinity"
  | _ =>
      match shortest_decimal n with
      | Some (negative, s, j) =>
          if negative then "-" ++ format_decimal s j else format_decimal s j
      | None => "0"
      end
  end.

(** [Number.isFinite]. *)
Definition is_finite (n : number) : bool :=
  match n with
  | NaN | Infinity _ => false
  | _ => true
  end.

Fixpoint join (sep : string) (l : list string) : string :=
  match l with
  | [] => EmptyString
  | [x] => x
  | x :: rest => x ++ sep ++ join sep rest
  end.

(** [ToString v], the conversion a template literal applies.  A symbol
    does not convert; a record that shadows [toString] with something not
    callable does not either.  (Records that shadow it with a function
    run user code and have no place in the embedding.) *)
Fixpoint ToString (v : jsval) : completion string :=
  match v with
  | VUndefined => Normal "undefined"
  | VNull => Normal "null"
  | VBool true => Normal "true"
  | VBool false => Normal "false"
  | VNum n => Normal (Number_toString n)
  | VStr s => Normal s
  | VSymbol _ => Throw (TypeError "Cannot convert a Symbol value to a string")
  | VFunction src => Normal src
  | VArray items =>
      match
        (fix go (l : list jsval) : completion (list string) :=
           match l with
           | [] => Normal []
           | x :: l' =>
               match (match x with
                      | VUndefined | VNull | VCycle _ => Normal EmptyString
                      | _ => ToString x
                      end) with
               | Throw e => Throw e
               | Normal s =>
                   match go l' with
                   | Throw e => Throw e
                   | Normal r => Normal (s :: r)
                   end
               end
           end) items
      with
      | Throw e => Throw e
      | Normal parts => Normal (join "," parts)
      end
  | VRecord props =>
      match lookup "toString" props with
      | Some _ => Throw (TypeError "Cannot convert object to primitive value")
      | None => Normal "[object Object]"
      end
  | VError c m _ =>
      let name := class_name c in
      if String.eqb name EmptyString then Normal m
      else if String.eqb m EmptyString then Normal name
      else Normal (name ++ ": " ++ m)
  | VPromise _ _ => Normal "[object Promise]"
  | VCycle _ => Normal "[object Object]"
  end.

(** ** JSON text *)

Definition dquote : ascii := "034"%char.
Definition backslash : ascii := "092"%char.

Definition hex_digit (n : N) : ascii :=
  match n with
  | 0 => "0" | 1 => "1" | 2 => "2" | 3 => "3" | 4 => "4" | 5 => "5"
  | 6 => "6" | 7 => "7" | 8 => "8" | 9 => "9" | 10 => "a" | 11 => "b"
  | 12 => "c" | 13 => "d" | 14 => "e" | _ => "f"
  end%N%char.

(** [QuoteJSONString] on a code unit that is no surrogate: the
    two-character escapes, [\u00xx] for the other control characters,
    every other byte as it is. *)
Definition escape_char (c : ascii) : string :=
  if Ascii.eqb c dquote then String backslash (String dquote EmptyString)
  else if Ascii.eqb c backslash then String backslash (String backslash EmptyString)
  else if Ascii.eqb c "008" then String backslash "b"
  else if Ascii.eqb c "009" then String backslash "t"
  else if Ascii.eqb c "010" then String backslash "n"
  else if Ascii.eqb c "012" then String backslash "f"
  else if Ascii.eqb c "013" then String backslash "r"
  else if (N_of_ascii c <? 32)%N then
    String backslash
      (String "u" (String "0" (String "0"
         (String (hex_digit (N_of_ascii c / 16))
            (String (hex_digit (N_of_ascii c mod 16)) EmptyString)))))
  else String c EmptyString.

(** The bytes [c b2 b3] hold a surrogate, a code unit from D800 to DFFF:
    ED, then A0..BF, then 80..BF.  It is a leading one when the second
    byte is below B0, a trailing one otherwise. *)
Definition is_surrogate (c b2 b3 : ascii) : bool :=
  (Ascii.eqb c "237"
   && (160 <=? N_of_ascii b2) && (N_of_ascii b2 <=? 191)
   && (128 <=? N_of_ascii b3) && (N_of_ascii b3 <=? 191))%N.

Definition is_leading (b2 : ascii) : bool := (N_of_ascii b2 <? 176)%N.

Definition surrogate_unit (b2 b3 : ascii) : N :=
  (55296 + (N_of_ascii b2 - 160) * 64 + (N_of_ascii b3 - 128))%N.

(** [UnicodeEscape]: a code unit as [\uxxxx], in lower case. *)
Definition unicode_escape (u : N) : string :=
  String backslash
    (String "u"
       (String (hex_digit (u / 4096))
          (String (hex_digit ((u / 256) mod 16))
             (String (hex_digit ((u / 16) mod 16))
                (String (hex_digit (u mod 16)) EmptyString)))))%N.

(** The characters of a string, quoted one code point at a time: a
    leading surrogate with the trailing one that follows it is a code
    point and stays as it is; a surrogate on its own is escaped. *)
Fixpoint quote_body (s : string) : string :=
  match s with
  | EmptyString => EmptyString
  | String c s1 =>
      match s1 with
      | String b2 (String b3 s3) =>
          if is_surrogate c b2 b3 then
            match s3 with
            | String c4 (String b5 (String b6 s6)) =>
                if is_leading b2 && is_surrogate c4 b5 b6 && negb (is_leading b5)
                then
                  String c (String b2 (String b3 (String c4 (String b5
                    (String b6 (quote_body s6))))))
                else unicode_escape (surrogate_unit b2 b3) ++ quote_body s3
            | _ => unicode_escape (surrogate_unit b2 b3) ++ quote_body s3
            end
          else escape_char c ++ quote_body s1
      | _ => escape_char c ++ quote_body s1
      end
  end.

Definition QuoteJSONString (s : string) : string :=
  String dquote (quote_body s ++ String dquote EmptyString).

Section SerializeLists.
Variable serialize : jsval -> completion (option string).

(** Elements of an array: what does not serialize is written [null]. *)
Fixpoint serialize_elements (l : list jsval) : completion (list string) :=
  match l with
  | [] => Normal []
  | x :: l' =>
      match serialize x with
      | Throw e => Throw e
      | Normal o =>
          match serialize_elements l' with
          | Throw e => Throw e
          | Normal r =>
              Normal (match o with Some t => t | None => "null" end :: r)
          end
      end
  end.

(** Members of a record: what does not serialize is left out. *)
Fixpoint serialize_members (l : list (string * jsval))
  : completion (list string) :=
  match l with
  | [] => Normal []
  | (k, x) :: l' =>
      match serialize x with
      | Throw e => Throw e
      | Normal o =>
          match serialize_members l' with
          | Throw e => Throw e
          | Normal r =>
              Normal (match o with
                      | Some t => (QuoteJSONString k ++ ":" ++ t) :: r
                      | None => r
                      end)
          end
      end
  end.
End SerializeLists.

(** [SerializeJSONProperty]: [None] is the [undefined] that
    [JSON.stringify] gives for what has no JSON form.  An error and a
    promise have no enumerable members of their own; a cycle throws.
    (A [toJSON] member that is a function would run user code.) *)
Fixpoint SerializeJSONProperty (v : jsval) : completion (option string) :=
  match v with
  | VUndefined | VFunction _ | VSymbol _ => Normal None
  | VNull => Normal (Some "null")
  | VBool true => Normal (Some "true")
  | VBool false => Normal (Some "false")
  | VNum n =>
      Normal (Some (if is_finite n then Number_toString n else "null"))
  | VStr s => Normal (Some (QuoteJSONString s))
  | VArray items =>
      match serialize_elements SerializeJSONProperty items with
      | Throw e => Throw e
      | Normal parts => Normal (Some ("[" ++ join "," parts ++ "]"))
      end
  | VRecord props =>
      match serialize_members SerializeJSONProperty props with
      | Throw e => Throw e
      | Normal parts => Normal (Some ("{" ++ join "," parts ++ "}"))
      end
  | VError _ _ _ | VPromise _ _ => Normal (Some "{}")
  | VCycle _ => Throw (TypeError "Converting circular structure to JSON")
  end.

(** [JSON.stringify(v)]. *)
Definition JSON_stringify (v : jsval) : completion jsval :=
  match SerializeJSONProperty v with
  | Throw e => Throw e
  | Normal None => Normal VUndefined
  | Normal (Some t) => Normal (VStr t)
  end.

(** ** Reading JSON text back *)

Definition hex_value (c : ascii) : option N :=
  let n := N_of_ascii c in
  if ((48 <=? n) && (n <=? 57))%N then Some (n - 48)%N
  else if ((97 <=? n) && (n <=? 102))%N then Some (n - 87)%N
  else if ((65 <=? n) && (n <=? 70))%N then Some (n - 55)%N
  else None.

Definition hex4 (a b c d : ascii) : option N :=
  match hex_value a, hex_value b, hex_value c, hex_value d with
  | Some x, Some y, Some z, Some w => Some (((x * 16 + y) * 16 + z) * 16 + w)%N
  | _, _, _, _ => None
  end.

Definition simple_escape (e : ascii) : option ascii :=
  if Ascii.eqb e dquote then Some dquote
  else if Ascii.eqb e backslash then Some backslash
  else if Ascii.eqb e "/" then Some "/"%char
  else if Ascii.eqb e "b" then Some "008"%char
  else if Ascii.eqb e "t" then Some "009"%char
  else if Ascii.eqb e "n" then Some "010"%char
  else if Ascii.eqb e "f" then Some "012"%char
  else if Ascii.eqb e "r" then Some "013"%char
  else None.

Definition prepend (c : ascii) (r : option (string * string))
  : option (string * string) :=
  match r with
  | Some (s, rest) => Some (String c s, rest)
  | None => None
  end.

Definition prepend_all (cs : string) (r : option (string * string))
  : option (string * string) :=
  match r with
  | Some (s, rest) => Some (cs ++ s, rest)
  | None => None
  end.

(** The bytes that hold the code unit [n]: one below 80, two below 800,
    three from there on. *)
Definition code_unit_bytes (n : N) : string :=
  (if n <? 128 then String (ascii_of_N n) EmptyString
   else if n <? 2048 then
     String (ascii_of_N (192 + n / 64))
       (String (ascii_of_N (128 + n mod 64)) EmptyString)
   else
     String (ascii_of_N (224 + n / 4096))
       (String (ascii_of_N (128 + (n / 64) mod 64))
          (String (ascii_of_N (128 + n mod 64)) EmptyString)))%N.

(** The characters of a string literal after its opening quote, up to the
    closing one: the string denoted and the text left.  This is the JSON
    grammar, which string literals of the language include with the same
    meaning.  An escape [\uxxxx] gives the bytes of its code unit, so
    that two escaped surrogates in a row are the character they spell. *)
Fixpoint read_string_body (s : string) : option (string * string) :=
  match s with
  | EmptyString => None
  | String c s1 =>
      if Ascii.eqb c dquote then Some (EmptyString, s1)
      else if Ascii.eqb c backslash then
        match s1 with
        | EmptyString => None
        | String e s2 =>
            if Ascii.eqb e "u" then
              match s2 with
              | String h1 (String h2 (String h3 (String h4 s3))) =>
                  match hex4 h1 h2 h3 h4 with
                  | Some n => prepend_all (code_unit_bytes n) (read_string_body s3)
                  | None => None
                  end
              | _ => None
              end
            else
              match simple_escape e with
              | Some c' => prepend c' (read_string_body s2)
              | None => None
              end
        end
      else if (N_of_ascii c <? 32)%N then None
      else prepend c (read_string_body s1)
  end.

Definition is_ws (c : ascii) : bool :=
  Ascii.eqb c " " || Ascii.eqb c "009" || Ascii.eqb c "010" || Ascii.eqb c "013".

Fixpoint skip_ws (s : string) : string :=
  match s with
  | EmptyString => EmptyString
  | String c s' => if is_ws c then skip_ws s' else s
  end.

Definition is_digit (c : ascii) : bool :=
  ((48 <=? N_of_ascii c) && (N_of_ascii c <=? 57))%N.

(** The longest run of digits at the head of a text. *)
Fixpoint span_digits (s : string) : string * string :=
  match s with
  | EmptyString => (EmptyString, EmptyString)
  | String c s' =>
      if is_digit c then
        let (d, rest) := span_digits s' in (String c d, rest)
      else (EmptyString, s)
  end.

Definition expect_char (c : ascii) (s : string) : option string :=
  match s with
  | String d rest => if Ascii.eqb c d then Some rest else None
  | EmptyString => None
  end.

(** The value of a run of digits, continuing from [acc]. *)
Fixpoint digits_value (acc : N) (s : string) : N :=
  match s with
  | EmptyString => acc
  | String c s' => digits_value (acc * 10 + (N_of_ascii c - 48))%N s'
  end.

(** The fraction of a JSON number, if there is one: a point and at
    least one digit. *)
Definition read_fraction (s : string) : option (string * string) :=
  match expect_char "." s with
  | Some s' =>
      let (d, rest) := span_digits s' in
      match d with
      | EmptyString => None
      | _ => Some (d, rest)
      end
  | None => Some (EmptyString, s)
  end.

(** The exponent of a JSON number, if there is one: [e] or [E], a sign
    or none, and at least one digit. *)
Definition read_exponent (s : string) : option (Z * string) :=
  match s with
  | String c s' =>
      if Ascii.eqb c "e" || Ascii.eqb c "E" then
        let (negative, s'') :=
          match expect_char "-" s' with
          | Some t => (true, t)
          | None =>
              match expect_char "+" s' with
              | Some t => (false, t)
              | None => (false, s')
              end
          end in
        let (d, rest) := span_digits s'' in
        match d with
        | EmptyString => None
        | _ =>
            Some (if negative then (- Z.of_N (digits_value 0 d))%Z
                  else Z.of_N (digits_value 0 d), rest)
        end
      else Some (0%Z, s)
  | EmptyString => Some (0%Z, s)
  end.

(** A JSON number: a sign or none, an integer with no needless zero in
    front, a fraction or none, an exponent or none. *)
Definition read_unsigned (negative : bool) (s1 : string)
  : option (number * string) :=
  let (whole, s2) := span_digits s1 in
  match whole with
  | EmptyString => None
  | String c more =>
      if Ascii.eqb c "0" && negb (String.eqb more EmptyString) then None
      else
        match read_fraction s2 with
        | None => None
        | Some (fraction, s3) =>
            match read_exponent s3 with
            | None => None
            | Some (exponent, rest) =>
                Some (decimal_to_number negative
                        (digits_value 0 (whole ++ fraction))
                        (exponent - Z.of_nat (String.length fraction)),
                      rest)
            end
        end
  end.

Definition read_number (s : string) : option (number * string) :=
  match expect_char "-" s with
  | Some s' => read_unsigned true s'
  | None => read_unsigned false s
  end.

Fixpoint strip_prefix (p s : string) : option string :=
  match p with
  | EmptyString => Some s
  | String c p' =>
      match s with
      | String d s' => if Ascii.eqb c d then strip_prefix p' s' else None
      | EmptyString => None
      end
  end.

Fixpoint all_digits (s : string) : bool :=
  match s with
  | EmptyString => true
  | String c s' => is_digit c && all_digits s'
  end.

(** An array index: the decimal text, with no needless zero in front, of
    an integer below [2^32 - 1]. *)
Definition array_index (k : string) : option N :=
  match k with
  | EmptyString => None
  | String c more =>
      if all_digits k
         && negb (Ascii.eqb c "0" && negb (String.eqb more EmptyString))
         && (digits_value 0 k <? 4294967295)%N
      then Some (digits_value 0 k)
      else None
  end.

(** [OrdinaryOwnPropertyKeys]: the array indices in ascending order, then
    the other keys in the order of their creation.  [key_before k k']:
    a new key [k] comes before the member [k']. *)
Definition key_before (k k' : string) : bool :=
  match array_index k, array_index k' with
  | Some i, Some i' => (i <? i')%N
  | Some _, None => true
  | None, _ => false
  end.

Fixpoint replace_member (k : string) (v : jsval)
  (props : list (string * jsval)) : list (string * jsval) :=
  match props with
  | [] => []
  | (k', v') :: rest =>
      if String.eqb k k' then (k, v) :: rest
      else (k', v') :: replace_member k v rest
  end.

Fixpoint insert_member (k : string) (v : jsval)
  (props : list (string * jsval)) : list (string * jsval) :=
  match props with
  | [] => [(k, v)]
  | (k', v') :: rest =>
      if key_before k k' then (k, v) :: props
      else (k', v') :: insert_member k v rest
  end.

(** [CreateDataProperty]: a key met again keeps its place and takes the
    new value; a new key takes its place in the order of the keys. *)
Definition obj_set (k : string) (v : jsval) (props : list (string * jsval))
  : list (string * jsval) :=
  if existsb (String.eqb k) (map fst props) then replace_member k v props
  else insert_member k v props.

Definition obj_of_members (l : list (string * jsval)) : list (string * jsval) :=
  fold_left (fun o kv => obj_set (fst kv) (snd kv) o) l [].

(** The recursive-descent reader.  [fuel] bounds the number of nested
    calls; [JSON_parse] supplies enough of it for any text. *)
Fixpoint parse_value (fuel : nat) (s : string) : option (jsval * string) :=
  match fuel with
  | O => None
  | S fuel' =>
      match skip_ws s with
      | EmptyString => None
      | String c s1 =>
          if Ascii.eqb c "n" then
            match strip_prefix "ull" s1 with
            | Some rest => Some (VNull, rest)
            | None => None
            end
          else if Ascii.eqb c "t" then
            match strip_prefix "rue" s1 with
            | Some rest => Some (VBool true, rest)
            | None => None
            end
          else if Ascii.eqb c "f" then
            match strip_prefix "alse" s1 with
            | Some rest => Some (VBool false, rest)
            | None => None
            end
          else if Ascii.eqb c dquote then
            match read_string_body s1 with
            | Some (str, rest) => Some (VStr str, rest)
            | None => None
            end
          else if Ascii.eqb c "[" then
            match expect_char "]" (skip_ws s1) with
            | Some rest => Some (VArray [], rest)
            | None =>
                match parse_elements fuel' s1 with
                | Some (items, rest) => Some (VArray items, rest)
                | None => None
                end
            end
          else if Ascii.eqb c "{" then
            match expect_char "}" (skip_ws s1) with
            | Some rest => Some (VRecord [], rest)
            | None =>
                match parse_members fuel' s1 with
                | Some (members, rest) =>
                    Some (VRecord (obj_of_members members), rest)
                | None => None
                end
            end
          else
            match read_number (String c s1) with
            | Some (n, rest) => Some (VNum n, rest)
            | None => None
            end
      end
  end

with parse_elements (fuel : nat) (s : string)
  : option (list jsval * string) :=
  match fuel with
  | O => None
  | S fuel' =>
      match parse_value fuel' s with
      | None => None
      | Some (v, s1) =>
          match expect_char "," (skip_ws s1) with
          | Some s2 =>
              match parse_elements fuel' s2 with
              | Some (vs, rest) => Some (v :: vs, rest)
              | None => None
              end
          | None =>
              match expect_char "]" (skip_ws s1) with
              | Some rest => Some ([v], rest)
              | None => None
              end
          end
      end
  end

with parse_members (fuel : nat) (s : string)
  : option (list (string * jsval) * string) :=
  match fuel with
  | O => None
  | S fuel' =>
      match expect_char dquote (skip_ws s) with
      | None => None
      | Some s1 =>
          match read_string_body s1 with
          | None => None
          | Some (k, s2) =>
              match expect_char ":" (skip_ws s2) with
              | None => None
              | Some s3 =>
                  match parse_value fuel' s3 with
                  | None => None
                  | Some (v, s4) =>
                      match expect_char "," (skip_ws s4) with
                      | Some s5 =>
                          match parse_members fuel' s5 with
                          | Some (ms, rest) => Some ((k, v) :: ms, rest)
                          | None => None
                          end
                      | None =>
                          match expect_char "}" (skip_ws s4) with
                          | Some rest => Some ([(k, v)], rest)
                          | None => None
                          end
                      end
                  end
              end
          end
      end
  end.

(** [JSON.parse(text)]: one value, then nothing but white space. *)
Definition JSON_parse (text : string) : option jsval :=
  match parse_value (2 * String.length text + 2) text with
  | Some (v, rest) =>
      match skip_ws rest with
      | EmptyString => Some v
      | _ => None
      end
  | None => None
  end.

(** ** The world the loader runs in *)

Inductive ConfigLoaderResult : Type :=
| ConfigLoaderFailResult (message : string)
| ConfigLoaderSuccessResult
    (configFileAbsolutePath baseUrl absoluteBaseUrl : string)
    (paths : list (string * list string)).

Definition resultType (r : ConfigLoaderResult) : string :=
  match r with
  | ConfigLoaderFailResult _ => "failed"
  | ConfigLoaderSuccessResult _ _ _ _ => "success"
  end.

(** [matchPath(requestedModule, readJson, fileExists, extensions)]: the
    path found, [undefined] when no pattern or no candidate fits. *)
Definition MatchPath : Type :=
  string -> (string -> jsval) -> (string -> bool) -> list string
  -> completion jsval.

Record ResolverOptions : Type := {
  resolver_extensions : list string;
  resolvePath_of : string -> string -> jsval -> completion jsval
}.

Definition Plugin : Type := (string * ResolverOptions)%type.

Record RegisterOptions : Type := {
  caller_isServer : bool;
  presets : list string;
  preset_env_targets : string;
  plugins : list Plugin;
  rootMode : string;
  ignore : list string;
  compact : bool;
  extensions_of : list string
}.

(** What the loader gets from outside: the modules it imports and the
    files it evaluates.  [loadConfig] throws on a configuration file that
    does not parse, [createMatchPath] on paths that are not as their type
    says.  [requireFromString] compiles under the transform that is
    registered at the time of the call. *)
Record host : Type := {
  loadConfig : completion ConfigLoaderResult;
  createMatchPath :
    string -> list (string * list string) -> completion MatchPath;
  defaultResolvePath : string -> string -> jsval -> completion jsval;
  require : string -> completion jsval;
  existsSync : string -> completion bool;
  requireFromString :
    option RegisterOptions -> string -> string -> completion jsval;
  stack_frames : string
}.

(** The state the loader changes: the process-wide transform registration
    of [@babel/register], and the error stream, of which [stderr] records
    the lines that the loader writes, one list of arguments for each call
    to [console.error]. *)
Record world : Type := {
  registration : option RegisterOptions;
  register_calls : nat;
  revert_calls : nat;
  stderr : list (list jsval)
}.

Definition M (A : Type) : Type := world -> completion A * world.

Definition ret {A} (a : A) : M A := fun w => (Normal a, w).
Definition throw {A} (e : jsval) : M A := fun w => (Throw e, w).
Definition lift {A} (c : completion A) : M A := fun w => (c, w).

Definition bind {A B} (m : M A) (k : A -> M B) : M B :=
  fun w =>
    match m w with
    | (Normal a, w1) => k a w1
    | (Throw e, w1) => (Throw e, w1)
    end.

Notation "x <- m ;; k" := (bind m (fun x => k))
  (at level 61, m at next level, right associativity).
Notation "m ;;; k" := (bind m (fun _ => k))
  (at level 61, right associativity).

(** [try { body } catch (e) { handler } finally { final }]. *)
Definition try_catch_finally {A}
  (body : M A) (handler : jsval -> M A) (final : M unit) : M A :=
  fun w =>
    let (r1, w1) := body w in
    let (r2, w2) :=
      match r1 with
      | Normal a => (Normal a, w1)
      | Throw e => handler e w1
      end in
    match final w2 with
    | (Normal _, w3) => (r2, w3)
    | (Throw e, w3) => (Throw e, w3)
    end.

(** [register(options)] of [@babel/register]. *)
Definition register (options : RegisterOptions) : M unit :=
  fun w =>
    (Normal tt,
     {| registration := Some options;
        register_calls := S (register_calls w);
        revert_calls := revert_calls w;
        stderr := stderr w |}).

(** [revert()] of [@babel/register]. *)
Definition revert : M unit :=
  fun w =>
    (Normal tt,
     {| registration := None;
        register_calls := register_calls w;
        revert_calls := S (revert_calls w);
        stderr := stderr w |}).

Definition console_error (args : list jsval) : M unit :=
  fun w =>
    (Normal tt,
     {| registration := registration w;
        register_calls := register_calls w;
        revert_calls := revert_calls w;
        stderr := stderr w ++ [args] |}).

(** [await v]: a thenable settles, anything else is its own value. *)
Definition await (v : jsval) : completion jsval :=
  match v with
  | VPromise true x => Normal x
  | VPromise false e => Throw e
  | _ => Normal v
  end.

(** [new C(message)]: the stack opens with the error's printed form. *)
Definition new_error (h : host) (c : error_class) (message : string) : jsval :=
  VError c message (Some (class_name c ++ ": " ++ message ++ stack_frames h)).

(** ** [src/loader.ts] *)

Record PrevalLoaderOptions : Type := {
  extensions : option (list string)
}.

Definition defaultExtensions : list string := [".js"; ".jsx"; ".ts"; ".tsx"].

Definition isRecord (something : jsval) : bool :=
  String.eqb (typeof something) "object"
  && truthy something
  && negb (Array_isArray something).

Definition readJson (h : host) (filename : string) : jsval :=
  match require h filename with
  | Normal v => v
  | Throw _ => VUndefined
  end.

Definition fileExists (h : host) (filename : string) : bool :=
  match existsSync h filename with
  | Normal b => b
  | Throw _ => false
  end.

(** Lines 47 to 57 call [loadConfig] and, for a configuration that
    loaded, [createMatchPath].  Nothing guards the two calls: what one of
    them throws leaves [_prevalLoader] at once. *)
Definition load_aliases (h : host) : completion unit :=
  match loadConfig h with
  | Throw e => Throw e
  | Normal (ConfigLoaderFailResult _) => Normal tt
  | Normal (ConfigLoaderSuccessResult _ _ absoluteBaseUrl paths) =>
      match createMatchPath h absoluteBaseUrl paths with
      | Throw e => Throw e
      | Normal _ => Normal tt
      end
  end.

(** The constants of lines 49 to 77, as they stand once the two calls
    have returned. *)
Definition configLoaderSuccessResult (h : host) : option ConfigLoaderResult :=
  match loadConfig h with
  | Normal configLoaderResult =>
      if String.eqb (resultType configLoaderResult) "failed" then None
      else Some configLoaderResult
  | Throw _ => None
  end.

Definition matchPath (h : host) : option MatchPath :=
  match configLoaderSuccessResult h with
  | Some (ConfigLoaderSuccessResult _ _ absoluteBaseUrl paths) =>
      match createMatchPath h absoluteBaseUrl paths with
      | Normal matcher => Some matcher
      | Throw _ => None
      end
  | _ => None
  end.

(** The [resolvePath] member of the module-resolver plugin's options. *)
Definition resolvePath (h : host) (exts : list string)
  (matcher : option MatchPath)
  (sourcePath currentFile : string) (opts : jsval) : completion jsval :=
  match matcher with
  | Some mp =>
      match mp sourcePath (readJson h) (fileExists h) exts with
      | Normal found => Normal found
      | Throw _ => defaultResolvePath h sourcePath currentFile opts
      end
  | None => defaultResolvePath h sourcePath currentFile opts
  end.

Definition moduleResolver (h : host) (exts : list string) : option Plugin :=
  match configLoaderSuccessResult h with
  | Some _ =>
      Some ("module-resolver",
            {| resolver_extensions := exts;
               resolvePath_of := resolvePath h exts (matchPath h) |})
  | None => None
  end.

(** The argument of the call to [register]. *)
Definition transform_options (h : host) (exts : list string) : RegisterOptions :=
  {| caller_isServer := true;
     presets := ["next/babel"; "@babel/preset-env"];
     preset_env_targets := "node 18";
     plugins := match moduleResolver h exts with
                | Some p => [p]
                | None => []
                end;
     rootMode := "upward-optional";
     ignore := [];
     compact := true;
     extensions_of := exts |}.

Definition LF : string := String "010" EmptyString.

Definition missing_default_message : string :=
  "No default export. Did you forget to `export default`?".

Definition dq : string := String dquote EmptyString.

Definition failure_message (resource description : string) : string :=
  "Failed to pre-evaluate " ++ dq ++ resource ++ dq ++ ". "
  ++ description ++ " See above for full stack trace.".

Definition diagnostic_tag : string := "[next-plugin-preval]".

(** Modelled from the spec: the module [./is-serializable] that the loader
    imports is not part of the sources at hand.  The spec (section 4.4)
    accepts strings, finite numbers, booleans, null, plain records and
    ordered sequences, recursively, and rejects callables, symbols,
    circular references and any other construct with an error that names
    the resource and the path of the failing value. *)
Inductive segment : Type :=
| Key (k : string)
| Index (i : nat).

Definition shape (v : jsval) : string :=
  match v with
  | VCycle _ => "circular reference"
  | VError _ _ _ | VPromise _ _ => "object"
  | VNum _ => "non-finite number"
  | _ => typeof v
  end.

Section FirstOffence.
Variable find : jsval -> option (list segment * string).

Fixpoint first_in_items (i : nat) (l : list jsval)
  : option (list segment * string) :=
  match l with
  | [] => None
  | x :: l' =>
      match find x with
      | Some (p, why) => Some (Index i :: p, why)
      | None => first_in_items (S i) l'
      end
  end.

Fixpoint first_in_props (l : list (string * jsval))
  : option (list segment * string) :=
  match l with
  | [] => None
  | (k, x) :: l' =>
      match find x with
      | Some (p, why) => Some (Key k :: p, why)
      | None => first_in_props l'
      end
  end.
End FirstOffence.

Fixpoint find_offence (v : jsval) : option (list segment * string) :=
  match v with
  | VNull | VBool _ | VStr _ => None
  | VNum n => if is_finite n then None else Some ([], shape v)
  | VArray items => first_in_items find_offence 0 items
  | VRecord props => first_in_props find_offence props
  | _ => Some ([], shape v)
  end.

Definition render_segment (g : segment) : string :=
  match g with
  | Key k => "." ++ k
  | Index i => "[" ++ digits (N.of_nat i) ++ "]"
  end.

Definition render_path (p : list segment) : string :=
  String.concat EmptyString (map render_segment p).

Definition serialization_message (resource : string) (p : list segment)
  (why : string) : string :=
  "Error serializing `" ++ render_path p ++ "` returned from `" ++ resource
  ++ "`. Reason: `" ++ why ++ "` cannot be serialized as JSON.".

Definition isSerializable (h : host) (resource : string) (data : jsval)
  : completion unit :=
  match find_offence data with
  | None => Normal tt
  | Some (p, why) =>
      Throw (new_error h SerializationFailure
               (serialization_message resource p why))
  end.

(** The template literal of the last line:
    [module.exports = JSON.parse(${JSON.stringify(JSON.stringify(data))})]. *)
Definition output_fragment (data : jsval) : completion string :=
  match JSON_stringify data with
  | Throw e => Throw e
  | Normal inner =>
      match JSON_stringify inner with
      | Throw e => Throw e
      | Normal outer =>
          match ToString outer with
          | Throw e => Throw e
          | Normal literal =>
              Normal ("module.exports = JSON.parse(" ++ literal ++ ")")
          end
      end
  end.

(** The program handed to [requireFromString], and its file name. *)
Definition synthesized_source (resource : string) : string :=
  "require('next');" ++ LF ++ "module.exports = require("
  ++ QuoteJSONString resource ++ ")".

Definition synthesized_filename (resource : string) : string :=
  resource ++ ".preval.js".

(** The [try]/[catch]/[finally] that yields [data]. *)
Definition evaluate (h : host) (resource : string) : M jsval :=
  try_catch_finally
    (mod_ <- (fun w =>
                (requireFromString h (registration w)
                   (synthesized_source resource)
                   (synthesized_filename resource), w)) ;;
     default_ <- lift (get mod_ "default") ;;
     if negb (truthy default_) then
       throw (new_error h PrevalError missing_default_message)
     else
       awaited <- lift (get mod_ "default") ;;
       lift (await awaited))
    (fun e =>
       (if isRecord e && has_property "stack" e then
          stack <- lift (get e "stack") ;;
          console_error [VStr diagnostic_tag; stack]
        else ret tt) ;;;
       description <- lift (ToString e) ;;
       throw (new_error h PrevalError (failure_message resource description)))
    revert.

(** [const { extensions = defaultExtensions } = options]. *)
Definition extensions_or_default (options : PrevalLoaderOptions) : list string :=
  match extensions options with
  | Some given => given
  | None => defaultExtensions
  end.

Definition _prevalLoader (h : host) (content resource : string)
  (options : PrevalLoaderOptions) : M string :=
  let exts := extensions_or_default options in
  lift (load_aliases h) ;;;
  register (transform_options h exts) ;;;
  data <- evaluate h resource ;;
  lift (isSerializable h resource data) ;;;
  lift (output_fragment data).

(** What evaluating an emitted fragment assigns to [module.exports]: the
    string literal is read, then handed to [JSON.parse]. *)
Definition decode_fragment (fragment : string) : option jsval :=
  match strip_prefix "module.exports = JSON.parse(" fragment with
  | Some (String c body) =>
      if Ascii.eqb c dquote then
        match read_string_body body with
        | Some (text, tail) =>
            if String.eqb tail ")" then JSON_parse text else None
        | None => None
        end
      else None
  | _ => None
  end.

(** ** Vocabulary of the properties *)

Fixpoint distinct (keys : list string) : bool :=
  match keys with
  | [] => true
  | k :: rest => negb (existsb (String.eqb k) rest) && distinct rest
  end.

(** A term of [jsval] that stands for a value of the language: the keys of
    a record are distinct, as the keys of an object are, a number is a
    double (every integer of magnitude below [2^53] is one), and a
    promise is not fulfilled with another promise. *)
Fixpoint well_formed (v : jsval) : bool :=
  match v with
  | VNum n => representable n
  | VArray items => forallb well_formed items
  | VRecord props =>
      distinct (map fst props)
      && forallb (fun kv => well_formed (snd kv)) props
  | VPromise fulfilled x =>
      well_formed x
      && negb (fulfilled && match x with VPromise _ _ => true | _ => false end)
  | _ => true
  end.

(** Keys in the order in which an object lists them: no key goes before
    one that stands earlier. *)
Fixpoint ordered_keys (keys : list string) : bool :=
  match keys with
  | [] => true
  | k :: rest =>
      forallb (fun k' => negb (key_before k' k)) rest && ordered_keys rest
  end.

(** The members of every record of the value are in that order, as the
    members of an object are. *)
Fixpoint own_key_order (v : jsval) : bool :=
  match v with
  | VArray items => forallb own_key_order items
  | VRecord props =>
      ordered_keys (map fst props)
      && forallb (fun kv => own_key_order (snd kv)) props
  | _ => true
  end.

(** No negative zero at any depth: the one finite number whose text,
    [0], reads back as another number. *)
Fixpoint negative_zero_free (v : jsval) : bool :=
  match v with
  | VNum NegativeZero => false
  | VArray items => forallb negative_zero_free items
  | VRecord props => forallb (fun kv => negative_zero_free (snd kv)) props
  | _ => true
  end.

(** A value built only from plain records, ordered sequences, strings,
    finite numbers, booleans and null. *)
Fixpoint is_data (v : jsval) : bool :=
  match v with
  | VNull | VBool _ | VStr _ => true
  | VNum n => is_finite n
  | VArray items => forallb is_data items
  | VRecord props => forallb (fun kv => is_data (snd kv)) props
  | _ => false
  end.

(** A node that is not data in itself. *)
Definition non_data_node (v : jsval) : bool :=
  match v with
  | VNull | VBool _ | VStr _ | VArray _ | VRecord _ => false
  | VNum n => negb (is_finite n)
  | _ => true
  end.

(** A value that holds a callable, a circular reference or any other
    construct that is not data, at any depth. *)
Fixpoint contains_non_data (v : jsval) : bool :=
  match v with
  | VArray items => existsb contains_non_data items
  | VRecord props => existsb (fun kv => contains_non_data (snd kv)) props
  | _ => non_data_node v
  end.

(** The value found by following a path into a value. *)
Fixpoint follow (p : list segment) (v : jsval) : option jsval :=
  match p with
  | [] => Some v
  | Key k :: p' =>
      match v with
      | VRecord props =>
          match lookup k props with
          | Some x => follow p' x
          | None => None
          end
      | _ => None
      end
  | Index i :: p' =>
      match v with
      | VArray items =>
          match nth_error items i with
          | Some x => follow p' x
          | None => None
          end
      | _ => None
      end
  end.

(** The run gets as far as the target module, which loads under the
    transform the loader registers, and [mod_] is what it exports. *)
Definition loads (h : host) (resource : string)
  (options : PrevalLoaderOptions) (mod_ : jsval) : Prop :=
  load_aliases h = Normal tt
  /\ requireFromString h
       (Some (transform_options h (extensions_or_default options)))
       (synthesized_source resource) (synthesized_filename resource)
     = Normal mod_.

(** The target module loads and its default export settles to [v]. *)
Definition resolves_to (h : host) (resource : string)
  (options : PrevalLoaderOptions) (v : jsval) : Prop :=
  exists mod_ default_,
    loads h resource options mod_
    /\ get mod_ "default" = Normal default_
    /\ truthy default_ = true
    /\ await default_ = Normal v.

(** Compiling or running the target module throws [e], or the computation
    it exports rejects with [e]. *)
Definition fails_with (h : host) (resource : string)
  (options : PrevalLoaderOptions) (e : jsval) : Prop :=
  (load_aliases h = Normal tt
   /\ requireFromString h
        (Some (transform_options h (extensions_or_default options)))
        (synthesized_source resource) (synthesized_filename resource)
      = Throw e)
  \/ exists mod_,
      loads h resource options mod_
      /\ (get mod_ "default" = Throw e
          \/ exists default_,
              get mod_ "default" = Normal default_
              /\ truthy default_ = true
              /\ await default_ = Throw e).

(** The world after a run that wrote [lines] to the error stream. *)
Definition after_run (w : world) (lines : list (list jsval)) : world :=
  {| registration := None;
     register_calls := S (register_calls w);
     revert_calls := S (revert_calls w);
     stderr := stderr w ++ lines |}.

(** The line the [catch] block writes for a failure, if it writes one. *)
Definition diagnostic_lines (e : jsval) : list (list jsval) :=
  if isRecord e && has_property "stack" e then
    match get e "stack" with
    | Normal trace => [[VStr diagnostic_tag; trace]]
    | Throw _ => []
    end
  else [].

(** The error the loader raises when the default export is missing. *)
Definition missing_default_error (h : host) (resource : string) : jsval :=
  new_error h PrevalError
    (failure_message resource ("Error: " ++ missing_default_message)).

(** The falsy values a module can export by default: zero, of either
    sign, [false], the empty string, [null] and [NaN]. *)
Definition falsy_exports : list jsval :=
  [VNum (Int 0); VNum NegativeZero; VBool false; VStr EmptyString; VNull;
   VNum NaN].

Definition is_thenable (v : jsval) : bool :=
  match v with VPromise _ _ => true | _ => false end.

(** Alias-based resolution fails: the matcher finds nothing (no pattern
    matches, or no candidate exists) or raises an error. *)
Definition alias_resolution_fails (r : completion jsval) : Prop :=
  r = Normal VUndefined \/ exists e, r = Throw e.

(** One more line, with the fixed tag, stands on the error stream. *)
Definition diagnostic_written (before after : world) : Prop :=
  exists trace, stderr after = (stderr before ++ [[VStr diagnostic_tag; trace]])%list.

Definition message_of (e : jsval) : string :=
  match e with
  | VError _ m _ => m
  | _ => EmptyString
  end.

Definition is_PrevalError (e : jsval) : bool :=
  match e with
  | VError PrevalError _ _ => true
  | _ => false
  end.

(** ** Sample hosts *)

(** The default strategy when no root and no alias is configured: a
    relative specifier stands, any other is left alone. *)
Definition plain_resolvePath (sourcePath currentFile : string) (opts : jsval)
  : completion jsval :=
  match sourcePath with
  | String c _ => if Ascii.eqb c "." then Normal (VStr sourcePath) else Normal VNull
  | EmptyString => Normal VNull
  end.

Definition host_configured (config : completion ConfigLoaderResult)
  (matcher : completion MatchPath) (outcome : completion jsval) : host :=
  {| loadConfig := config;
     createMatchPath := fun _ _ => matcher;
     defaultResolvePath := plain_resolvePath;
     require := fun _ => Throw (TypeError "not found");
     existsSync := fun _ => Normal false;
     requireFromString := fun _ _ _ => outcome;
     stack_frames := LF ++ "    at <anonymous>" |}.

Definition host_loading (config : ConfigLoaderResult) (matcher : MatchPath)
  (outcome : completion jsval) : host :=
  host_configured (Normal config) (Normal matcher) outcome.

Definition no_config : ConfigLoaderResult :=
  ConfigLoaderFailResult "Couldn't find tsconfig.json".

Definition lib_config : ConfigLoaderResult :=
  ConfigLoaderSuccessResult "/app/tsconfig.json" "." "/app"
    [("@lib/*", ["missing/*"])].

Definition no_match : MatchPath := fun _ _ _ _ => Normal VUndefined.

Definition host_exporting (default_ : jsval) : host :=
  host_loading no_config no_match (Normal (VRecord [("default", default_)])).

Definition host_aliased : host :=
  host_loading lib_config no_match (Normal (VRecord [])).

(** A configuration file that does not parse. *)
Definition malformed_config_error : jsval :=
  VError (NativeError "Error") "/app/tsconfig.json is malformed"
    (Some "Error: /app/tsconfig.json is malformed").

Definition host_malformed : host :=
  host_configured (Throw malformed_config_error) (Normal no_match)
    (Normal (VRecord [("default", VStr "data")])).

(** A configuration whose paths are not lists of targets. *)
Definition bad_paths_error : jsval :=
  TypeError "paths[key].map is not a function".

Definition host_bad_paths : host :=
  host_configured (Normal lib_config) (Throw bad_paths_error)
    (Normal (VRecord [("default", VStr "data")])).

(** A configuration that loads and holds no alias. *)
Definition empty_config : ConfigLoaderResult :=
  ConfigLoaderSuccessResult "/app/tsconfig.json" "." "/app" [].

Definition host_no_alias : host :=
  host_loading empty_config no_match
    (Normal (VRecord [("default", VStr "data")])).

Definition host_rejecting : host :=
  host_exporting (VPromise false (VStr "boom")).

Definition host_rejecting_symbol : host :=
  host_exporting (VPromise false (VSymbol "token")).

Definition fresh_world : world :=
  {| registration := None; register_calls := 0; revert_calls := 0;
     stderr := [] |}.

Definition default_options : PrevalLoaderOptions := {| extensions := None |}.

Definition sample_data : jsval :=
  VRecord [("a", VNum (Int 1));
           ("b", VArray [VNum (Int 1); VNum (Int 2); VNum (Int 3)])].

(** Text that may follow a number: it opens with neither a digit nor a
    fraction or exponent mark. *)
Definition ends_number (rest : string) : bool :=
  match rest with
  | EmptyString => true
  | String c _ =>
      negb (is_digit c || Ascii.eqb c "." || Ascii.eqb c "e" || Ascii.eqb c "E")
  end.

(** Text that opens a JSON value: no white space, no closing bracket. *)
Definition opens_value (t : string) : bool :=
  match t with
  | EmptyString => false
  | String c _ =>
      negb (is_ws c || Ascii.eqb c "]" || Ascii.eqb c "}" || Ascii.eqb c ","
            || Ascii.eqb c ":")
  end.

(** [t] is a text that the reader turns back into [v], whatever follows. *)
Definition reads_back (v : jsval) (t : string) : Prop :=
  opens_value t = true
  /\ forall fuel rest,
      2 * String.length t <= fuel ->
      ends_number rest = true ->
      parse_value fuel (t ++ rest) = Some (v, rest).

(** A data value serializes to a text that reads back as the value. *)
Definition serializes_and_reads_back (x : jsval) : Prop :=
  well_formed x = true -> own_key_order x = true ->
  is_data x = true -> negative_zero_free x = true ->
  exists t, SerializeJSONProperty x = Normal (Some t) /\ reads_back x t.

(** A path that the validator reports leads to a construct that is not
    data, and the reason given is the shape of that construct. *)
Definition path_is_sound (x : jsval) : Prop :=
  well_formed x = true ->
  forall p why,
    find_offence x = Some (p, why) ->
    exists u, follow p x = Some u /\ non_data_node u = true /\ why = shape u.

Fixpoint contains (needle haystack : string) : bool :=
  match strip_prefix needle haystack with
  | Some _ => true
  | None =>
      match haystack with
      | EmptyString => false
      | String _ rest => contains needle rest
      end
  end.

(** ** The webpack loader ([loader], the default export of the file) *)

(** What [loader] reads off [this]: whether [this.async()] hands out a
    callback, what that callback does when it is called with [args]
    after the calls [earlier] (it returns, or it throws), the resource
    path, and what [getOptions(this)] gives. *)
Record LoaderContext : Type := {
  async_callback : bool;
  callback : list (list jsval) -> list jsval -> completion unit;
  resourcePath : string;
  getOptions : completion PrevalLoaderOptions
}.

(** What [loader] does to [this] and to the process: the flag given to
    [this.cacheable], the argument lists of the calls to the callback in
    their order, and the rejection that no handler takes, if the promise
    chain ends in one. *)
Record LoaderEffects : Type := {
  cacheable : option bool;
  callback_calls : list (list jsval);
  unhandled_rejection : option jsval
}.

Definition async_unsupported_message : string :=
  "Async was not supported by webpack. Please open an issue in next-plugin-preval.".

(** A settled promise, with the calls to the callback made so far. *)
Definition Settled (A : Type) : Type :=
  list (list jsval) -> completion A * list (list jsval).

Definition call_callback (this : LoaderContext) (args : list jsval)
  : Settled unit :=
  fun earlier => (callback this earlier args, (earlier ++ [args])%list).

(** [promise.then(onFulfilled)]: a rejection passes through; what the
    handler throws rejects the new promise. *)
Definition promise_then {A B} (promise : Settled A)
  (onFulfilled : A -> Settled B) : Settled B :=
  fun earlier =>
    match promise earlier with
    | (Normal a, calls) => onFulfilled a calls
    | (Throw e, calls) => (Throw e, calls)
    end.

(** [promise.catch(onRejected)]. *)
Definition promise_catch {A} (promise : Settled A)
  (onRejected : jsval -> Settled A) : Settled A :=
  fun earlier =>
    match promise earlier with
    | (Normal a, calls) => (Normal a, calls)
    | (Throw e, calls) => onRejected e calls
    end.

(** [loader.call(this, content)]: what it throws or returns at once, what
    it does to [this], and the world once the promise chain has
    settled. *)
Definition loader (h : host) (this : LoaderContext) (content : string)
  (w : world) : completion unit * LoaderEffects * world :=
  if negb (async_callback this) then
    (Throw (new_error h PrevalError async_unsupported_message),
     {| cacheable := Some false; callback_calls := [];
        unhandled_rejection := None |}, w)
  else
    match getOptions this with
    | Throw e =>
        (Throw e,
         {| cacheable := Some false; callback_calls := [];
            unhandled_rejection := None |}, w)
    | Normal options =>
        let (settled, w') :=
          _prevalLoader h content (resourcePath this) options w in
        let (last, calls) :=
          promise_catch
            (promise_then (fun earlier => (settled, earlier))
               (fun result => call_callback this [VNull; VStr result]))
            (fun e => call_callback this [e])
            [] in
        (Normal tt,
         {| cacheable := Some false; callback_calls := calls;
            unhandled_rejection :=
              match last with Throw e => Some e | Normal _ => None end |},
         w')
    end.

(** ** More vocabulary *)

(** No byte below 32, that is none of the control characters U+0000 to
    U+001F, line feed, carriage return and tab among them.  (The
    delete character, the controls from U+0080 and the separators U+2028
    and U+2029 are other characters, and [JSON.stringify] lets them
    through.) *)
Fixpoint no_C0_control (s : string) : bool :=
  match s with
  | EmptyString => true
  | String c s' => negb (N_of_ascii c <? 32)%N && no_C0_control s'
  end.

(** The path that the synthesized program requires, read off its text. *)
Definition required_path (source : string) : option string :=
  match strip_prefix ("require('next');" ++ LF ++ "module.exports = require(")
          source with
  | Some (String c body) =>
      if Ascii.eqb c dquote then
        match read_string_body body with
        | Some (path, tail) =>
            if String.eqb tail ")" then Some path else None
        | None => None
        end
      else None
  | _ => None
  end.

(** A host that differs from [h] only in what loading a module gives
    while no transform is registered. *)
Definition with_unregistered_outcome (h : host) (outcome : completion jsval)
  : host :=
  {| loadConfig := loadConfig h;
     createMatchPath := createMatchPath h;
     defaultResolvePath := defaultResolvePath h;
     require := require h;
     existsSync := existsSync h;
     requireFromString := fun reg source filename =>
       match reg with
       | Some _ => requireFromString h reg source filename
       | None => outcome
       end;
     stack_frames := stack_frames h |}.

(** A host whose default strategy raises an error. *)
Definition host_strict : host :=
  {| loadConfig := Normal lib_config;
     createMatchPath :=
       fun _ _ => Normal (fun _ _ _ _ => Throw (TypeError "bad pattern"));
     defaultResolvePath := fun _ _ _ => Throw (TypeError "cannot resolve");
     require := fun _ => Throw (TypeError "not found");
     existsSync := fun _ => Normal false;
     requireFromString := fun _ _ _ => Normal (VRecord []);
     stack_frames := EmptyString |}.

Definition sample_context : LoaderContext :=
  {| async_callback := true;
     callback := fun _ _ => Normal tt;
     resourcePath := "/app/data.preval.ts";
     getOptions := Normal default_options |}.

Definition sync_context : LoaderContext :=
  {| async_callback := false;
     callback := fun _ _ => Normal tt;
     resourcePath := "/app/data.preval.ts";
     getOptions := Normal default_options |}.

(** A callback that throws when it is handed a fragment, as it does when
    what webpack does next with the fragment throws. *)
Definition downstream_error : jsval := TypeError "downstream failed".

Definition throwing_context : LoaderContext :=
  {| async_callback := true;
     callback := fun earlier args =>
       match earlier, args with
       | [], [VNull; _] => Throw downstream_error
       | _, _ => Normal tt
       end;
     resourcePath := "/app/data.preval.ts";
     getOptions := Normal default_options |}.

(** Vocabulary of the number reader. *)
Definition no_digit_ahead (rest : string) : bool :=
  match rest with
  | EmptyString => true
  | String c _ => negb (is_digit c)
  end.

(** The value of a run of digits of the library, continuing from [acc]. *)
Fixpoint uint_value (acc : N) (d : Decimal.uint) : N :=
  match d with
  | Decimal.Nil => acc
  | Decimal.D0 l => uint_value (acc * 10 + 0) l
  | Decimal.D1 l => uint_value (acc * 10 + 1) l
  | Decimal.D2 l => uint_value (acc * 10 + 2) l
  | Decimal.D3 l => uint_value (acc * 10 + 3) l
  | Decimal.D4 l => uint_value (acc * 10 + 4) l
  | Decimal.D5 l => uint_value (acc * 10 + 5) l
  | Decimal.D6 l => uint_value (acc * 10 + 6) l
  | Decimal.D7 l => uint_value (acc * 10 + 7) l
  | Decimal.D8 l => uint_value (acc * 10 + 8) l
  | Decimal.D9 l => uint_value (acc * 10 + 9) l
  end%N.

(** * Properties *)

#[local] Arguments transform_options : simpl never.
#[local] Arguments synthesized_source : simpl never.
#[local] Arguments synthesized_filename : simpl never.
#[local] Arguments failure_message : simpl never.
#[local] Arguments extensions_or_default : simpl never.
#[local] Arguments output_fragment : simpl never.
#[local] Arguments isSerializable : simpl never.
#[local] Arguments missing_default_message : simpl never.
#[local] Arguments decimal_to_number : simpl never.
#[local] Arguments nearest_double : simpl never.

(** ** The transform session *)

(** What a sample host gives, by running it. *)
Ltac run_host := first [reflexivity | split; reflexivity].

(** Case analysis on whatever the goal still branches on. *)
Ltac branch :=
  repeat match goal with
         | |- context [match ?x with _ => _ end] =>
             lazymatch x with
             | context [match _ with _ => _ end] => fail
             | _ => destruct x eqn:?; cbn
             end
         end.

Lemma evaluate_reverts (h : host) (resource : string) (w : world) :
  registration (snd (evaluate h resource w)) = None
  /\ revert_calls (snd (evaluate h resource w)) = S (revert_calls w)
  /\ register_calls (snd (evaluate h resource w)) = register_calls w.
Proof.
  unfold evaluate, try_catch_finally, bind, lift, throw, ret, revert,
    console_error.
  branch; auto.
Qed.

(** C1.  Whatever the target module does (it loads and its default export
    settles, it has no default export, loading throws, the exported
    computation rejects) and whatever the validator then says, one run of
    [_prevalLoader] that gets as far as the transform session calls
    [register] once and [revert] exactly once, and leaves no transform
    registered when it returns or raises.  A run that the alias
    configuration cuts short (lines 47 to 57 throw) opens no session: it
    calls neither and leaves the registration as it was. *)
Theorem prevalLoader_reverts_exactly_once
  (h : host) (content resource : string) (options : PrevalLoaderOptions)
  (w : world) :
  let run := _prevalLoader h content resource options w in
  match load_aliases h with
  | Normal _ =>
      revert_calls (snd run) = S (revert_calls w)
      /\ register_calls (snd run) = S (register_calls w)
      /\ registration (snd run) = None
  | Throw e => run = (Throw e, w)
  end.
Proof.
  cbv zeta. unfold _prevalLoader, bind, register, lift.
  destruct (load_aliases h) as [[] | e0]; [| reflexivity].
  match goal with
  | |- context [evaluate h resource ?w1] =>
      pose proof (evaluate_reverts h resource w1) as (Hreg & Hrev & Hcalls);
      destruct (evaluate h resource w1) as [[data | e] w2]
  end; cbn in *.
  - destruct (isSerializable h resource data); cbn; auto.
  - auto.
Qed.

(** ** One run of the loader, by what the target module does *)

Lemma run_resolved (h : host) (content resource : string)
  (options : PrevalLoaderOptions) (w : world) (v : jsval) :
  resolves_to h resource options v ->
  _prevalLoader h content resource options w
  = (match isSerializable h resource v with
     | Normal _ => output_fragment v
     | Throw e => Throw e
     end, after_run w []).
Proof.
  intros (m & d & [Hcfg Hload] & Hget & Htruthy & Hawait).
  unfold _prevalLoader, evaluate, try_catch_finally, bind, lift, register,
    revert, after_run; cbn.
  rewrite Hcfg; cbn.
  rewrite Hload; cbn. rewrite Hget; cbn. rewrite Htruthy; cbn.
  rewrite Hawait; cbn. rewrite List.app_nil_r.
  destruct (isSerializable h resource v); reflexivity.
Qed.

Lemma run_failed (h : host) (content resource : string)
  (options : PrevalLoaderOptions) (w : world) (e : jsval) (d : string) :
  fails_with h resource options e ->
  ToString e = Normal d ->
  _prevalLoader h content resource options w
  = (Throw (new_error h PrevalError (failure_message resource d)),
     after_run w (diagnostic_lines e)).
Proof.
  intros Hfail Hstr.
  assert (Hstack : forall b, isRecord e && b = true ->
                             exists t, get e "stack" = Normal t).
  { intros b Hb. apply andb_prop in Hb as [Hrec _].
    destruct e; try discriminate; cbn; eauto. }
  unfold _prevalLoader, evaluate, try_catch_finally, bind, lift, register,
    revert, after_run, diagnostic_lines, console_error, throw, ret; cbn.
  destruct Hfail
    as [[Hcfg Hload] | (m & [Hcfg Hload] & [Hget | (x & Hget & Ht & Haw)])];
    rewrite Hcfg; cbn; rewrite Hload; cbn;
    try (rewrite Hget; cbn); try (rewrite Ht; cbn);
    try (rewrite Hget; cbn); try (rewrite Haw; cbn);
    (destruct (isRecord e && has_property "stack" e) eqn:Hrec;
     [ destruct (Hstack _ Hrec) as [t Ht']; rewrite Ht'; cbn
     | rewrite List.app_nil_r ];
     rewrite Hstr; reflexivity).
Qed.

Lemma run_falsy (h : host) (content resource : string)
  (options : PrevalLoaderOptions) (w : world) (mod_ default_ : jsval) :
  loads h resource options mod_ ->
  get mod_ "default" = Normal default_ ->
  truthy default_ = false ->
  _prevalLoader h content resource options w
  = (Throw (missing_default_error h resource),
     after_run w
       (diagnostic_lines (new_error h PrevalError missing_default_message))).
Proof.
  intros [Hcfg Hload] Hget Hfalsy.
  unfold _prevalLoader, evaluate, try_catch_finally, bind, lift, register,
    revert, after_run, diagnostic_lines, console_error, throw, ret; cbn.
  rewrite Hcfg; cbn.
  rewrite Hload; cbn. rewrite Hget; cbn. rewrite Hfalsy; cbn.
  reflexivity.
Qed.

Example JSON_parse_sample :
  JSON_parse ("{ " ++ QuoteJSONString "a" ++ " : [1, -20, true, null] ,"
              ++ QuoteJSONString "b" ++ ":" ++ QuoteJSONString "x" ++ ","
              ++ QuoteJSONString "a" ++ ": {}}")
  = Some (VRecord [("a", VRecord []); ("b", VStr "x")]).
Proof. vm_compute. reflexivity. Qed.

Example stringify_sample :
  JSON_stringify
    (VRecord [("a", VNum (Int 1));
              ("b", VArray [VNum (Int (-2)); VUndefined; VStr (String "010" "q")]);
              ("c", VFunction "() => 1")])
  = Normal (VStr ("{" ++ QuoteJSONString "a" ++ ":1,"
                  ++ QuoteJSONString "b" ++ ":[-2,null,"
                  ++ String dquote (String backslash ("nq" ++ String dquote "]}")))).
Proof. vm_compute. reflexivity. Qed.

(** What [Number::toString] prints: both zeros as [0], integers in full
    below [10^21], the fewest digits that tell a double from its
    neighbours. *)
Example Number_toString_samples :
  map Number_toString
    [Int 0; NegativeZero; Int (-5); Int (2 ^ 53); Int (10 ^ 21);
     Int (2 ^ 70); Fraction false 1 1; Fraction true 1 2;
     Fraction false 3602879701896397 55; Fraction false 1 20;
     Fraction false 1 1074]
  = ["0"; "0"; "-5"; "9007199254740992"; "1e+21"; "1.1805916207174113e+21";
     "0.5"; "-0.25"; "0.1"; "9.5367431640625e-7"; "5e-324"].
Proof. vm_compute. reflexivity. Qed.

(** What [JSON.parse] makes of numbers: fractions and exponents, the
    negative zero, rounding to the nearest double, overflow and
    underflow; and the texts that are no JSON numbers. *)
Example JSON_parse_numbers :
  map JSON_parse
    ["0.5"; "1e2"; "-0"; "0.1"; "9007199254740993"; "1e400"; "2e-324";
     "01"; "1."; "+1"]
  = [Some (VNum (Fraction false 1 1)); Some (VNum (Int 100));
     Some (VNum NegativeZero);
     Some (VNum (Fraction false 3602879701896397 55));
     Some (VNum (Int 9007199254740992)); Some (VNum (Infinity false));
     Some (VNum (Int 0)); None; None; None].
Proof. vm_compute. reflexivity. Qed.

Example doubles :
  map representable
    [Int (2 ^ 53 + 1); Int (2 ^ 53 + 2); Int (2 ^ 1024);
     Int (2 ^ 1024 - 2 ^ 971); Fraction false 1 1074; Fraction false 1 1075;
     Fraction false 2 3]
  = [false; true; false; true; true; false; false].
Proof. vm_compute. reflexivity. Qed.

(** [JSON.parse] lists the array indices first, in ascending order. *)
Example JSON_parse_key_order :
  JSON_parse ("{" ++ QuoteJSONString "b" ++ ":1," ++ QuoteJSONString "10"
              ++ ":2," ++ QuoteJSONString "9" ++ ":3,"
              ++ QuoteJSONString "01" ++ ":4}")
  = Some (VRecord [("9", VNum (Int 3)); ("10", VNum (Int 2));
                   ("b", VNum (Int 1)); ("01", VNum (Int 4))]).
Proof. vm_compute. reflexivity. Qed.

(** A surrogate on its own is escaped; two escaped surrogates read back
    as the pair. *)
Example lone_surrogate_is_escaped :
  QuoteJSONString (String "237" (String "160" (String "189" "x")))
  = String dquote (String backslash ("ud83dx" ++ String dquote EmptyString)).
Proof. reflexivity. Qed.

Example surrogate_pair_reads_back :
  JSON_parse
    (String dquote
       (String backslash
          ("ud83d" ++ String backslash ("ude00" ++ String dquote EmptyString))))
  = Some (VStr (String "237" (String "160" (String "189"
                  (String "237" (String "184" (String "128" EmptyString))))))).
Proof. reflexivity. Qed.

(** ** Strings *)

Lemma append_assoc (a b c : string) : ((a ++ b) ++ c = a ++ (b ++ c))%string.
Proof. induction a as [| x a IH]; cbn; [reflexivity | now rewrite IH]. Qed.

Lemma append_nil_r (a : string) : (a ++ EmptyString)%string = a.
Proof. induction a as [| x a IH]; cbn; [reflexivity | now rewrite IH]. Qed.

Lemma length_append (a b : string) :
  String.length (a ++ b) = String.length a + String.length b.
Proof. induction a as [| x a IH]; cbn; [reflexivity | now rewrite IH]. Qed.

Lemma length_separated (a b : string) :
  String.length (a ++ "," ++ b) = String.length a + S (String.length b).
Proof. now rewrite length_append. Qed.

Lemma strip_prefix_append (p s : string) : strip_prefix p (p ++ s) = Some s.
Proof.
  induction p as [| c p IH]; cbn; [reflexivity |].
  now rewrite Ascii.eqb_refl.
Qed.

Lemma contains_append (needle a b : string) :
  contains needle (a ++ needle ++ b) = true.
Proof.
  induction a as [| c a IH]; cbn.
  - destruct needle; cbn; [destruct b; reflexivity |].
    now rewrite Ascii.eqb_refl, strip_prefix_append.
  - destruct needle as [| d needle]; [reflexivity |].
    cbn in *. destruct (Ascii.eqb d c); [| exact IH].
    destruct (strip_prefix needle _); [reflexivity | exact IH].
Qed.

Lemma contains_here (needle b : string) :
  contains needle (needle ++ b) = true.
Proof. exact (contains_append needle EmptyString b). Qed.

Lemma contains_later (needle a b : string) :
  contains needle b = true -> contains needle (a ++ b) = true.
Proof.
  intros H. induction a as [| c a IH]; [exact H |].
  cbn [append contains].
  destruct (strip_prefix needle (String c (a ++ b))); [reflexivity | exact IH].
Qed.

(** A needle that stands among the pieces of a concatenation. *)
Ltac find_needle :=
  rewrite ?append_assoc;
  repeat first [apply contains_here | apply contains_later].

(** ** String literals read back *)

Lemma read_escape_char (c : ascii) (rest : string) :
  read_string_body (escape_char c ++ rest)
  = prepend c (read_string_body rest).
Proof.
  destruct c as [[|] [|] [|] [|] [|] [|] [|] [|]]; reflexivity.
Qed.

Lemma read_raw_byte (c : ascii) (rest : string) :
  (128 <=? N_of_ascii c)%N = true ->
  read_string_body (String c rest) = prepend c (read_string_body rest).
Proof.
  intros H.
  destruct c as [[|] [|] [|] [|] [|] [|] [|] [|]];
    try discriminate H; reflexivity.
Qed.

Lemma surrogate_bytes (c b2 b3 : ascii) :
  is_surrogate c b2 b3 = true ->
  c = "237"%char
  /\ ((160 <=? N_of_ascii b2) = true /\ (N_of_ascii b2 <=? 191) = true)%N
  /\ ((128 <=? N_of_ascii b3) = true /\ (N_of_ascii b3 <=? 191) = true)%N.
Proof.
  unfold is_surrogate. intros H.
  repeat (apply andb_true_iff in H as [H ?]).
  apply Ascii.eqb_eq in H. auto.
Qed.

Lemma hex_value_digit (n : N) :
  (n < 16)%N -> hex_value (hex_digit n) = Some n.
Proof.
  intros H.
  assert (Hcases : In n [0; 1; 2; 3; 4; 5; 6; 7; 8; 9; 10; 11; 12; 13; 14; 15]%N).
  { cbn. lia. }
  cbn in Hcases.
  repeat (destruct Hcases as [<- | Hcases]; [reflexivity |]).
  contradiction.
Qed.

Lemma read_unicode_escape (h1 h2 h3 h4 : ascii) (rest : string) :
  read_string_body
    (String backslash
       (String "u" (String h1 (String h2 (String h3 (String h4 rest))))))
  = match hex4 h1 h2 h3 h4 with
    | Some n => prepend_all (code_unit_bytes n) (read_string_body rest)
    | None => None
    end.
Proof. reflexivity. Qed.

Lemma hex4_unicode_escape (u : N) :
  (u < 65536)%N ->
  hex4 (hex_digit (u / 4096)) (hex_digit ((u / 256) mod 16))
    (hex_digit ((u / 16) mod 16)) (hex_digit (u mod 16))
  = Some u.
Proof.
  intros Hu. unfold hex4.
  assert (H1 : (u / 4096 < 16)%N) by (zify; Z.to_euclidean_division_equations; lia).
  assert (H2 : ((u / 256) mod 16 < 16)%N) by (zify; Z.to_euclidean_division_equations; lia).
  assert (H3 : ((u / 16) mod 16 < 16)%N) by (zify; Z.to_euclidean_division_equations; lia).
  assert (H4 : (u mod 16 < 16)%N) by (zify; Z.to_euclidean_division_equations; lia).
  rewrite !hex_value_digit by assumption.
  f_equal. zify. Z.to_euclidean_division_equations. lia.
Qed.

Lemma surrogate_unit_bytes (b2 b3 : ascii) :
  ((160 <=? N_of_ascii b2) = true /\ (N_of_ascii b2 <=? 191) = true)%N ->
  ((128 <=? N_of_ascii b3) = true /\ (N_of_ascii b3 <=? 191) = true)%N ->
  (surrogate_unit b2 b3 < 65536)%N
  /\ code_unit_bytes (surrogate_unit b2 b3)
     = String "237" (String b2 (String b3 EmptyString)).
Proof.
  intros [H2 H2'] [H3 H3'].
  apply N.leb_le in H2, H2', H3, H3'.
  unfold surrogate_unit, code_unit_bytes.
  set (x := N_of_ascii b2) in *. set (y := N_of_ascii b3) in *.
  set (u := (55296 + (x - 160) * 64 + (y - 128))%N).
  assert (Hu : (55296 <= u < 57344)%N) by (unfold u; lia).
  split; [lia |].
  destruct (u <? 128)%N eqn:E1; [apply N.ltb_lt in E1; lia |].
  destruct (u <? 2048)%N eqn:E2; [apply N.ltb_lt in E2; lia |].
  assert (H1 : (224 + u / 4096 = 237)%N)
    by (unfold u; zify; Z.to_euclidean_division_equations; lia).
  assert (H2b : (128 + (u / 64) mod 64 = x)%N)
    by (unfold u; zify; Z.to_euclidean_division_equations; lia).
  assert (H3b : (128 + u mod 64 = y)%N)
    by (unfold u; zify; Z.to_euclidean_division_equations; lia).
  rewrite H1, H2b, H3b. unfold x, y.
  now rewrite !ascii_N_embedding.
Qed.

Lemma read_surrogate_escape (c b2 b3 : ascii) (rest : string) :
  is_surrogate c b2 b3 = true ->
  read_string_body (unicode_escape (surrogate_unit b2 b3) ++ rest)
  = prepend_all (String c (String b2 (String b3 EmptyString)))
      (read_string_body rest).
Proof.
  intros H.
  destruct (surrogate_bytes c b2 b3 H) as (-> & H2 & H3).
  destruct (surrogate_unit_bytes b2 b3 H2 H3) as [Hu Hbytes].
  unfold unicode_escape. cbn [append].
  now rewrite read_unicode_escape, (hex4_unicode_escape _ Hu), Hbytes.
Qed.

Lemma read_surrogate_pair (c b2 b3 c4 b5 b6 : ascii) (rest : string) :
  is_surrogate c b2 b3 = true ->
  is_surrogate c4 b5 b6 = true ->
  read_string_body
    (String c (String b2 (String b3 (String c4 (String b5 (String b6 rest))))))
  = prepend_all
      (String c (String b2 (String b3 (String c4 (String b5
         (String b6 EmptyString))))))
      (read_string_body rest).
Proof.
  intros H H'.
  destruct (surrogate_bytes c b2 b3 H) as (-> & [H2 _] & [H3 _]).
  destruct (surrogate_bytes c4 b5 b6 H') as (-> & [H5 _] & [H6 _]).
  assert (Hhigh : forall b, (160 <=? N_of_ascii b)%N = true ->
                            (128 <=? N_of_ascii b)%N = true).
  { intros b Hb. apply N.leb_le in Hb. apply N.leb_le. lia. }
  rewrite (read_raw_byte "237") by reflexivity.
  rewrite (read_raw_byte b2) by auto.
  rewrite (read_raw_byte b3) by auto.
  rewrite (read_raw_byte "237") by reflexivity.
  rewrite (read_raw_byte b5) by auto.
  rewrite (read_raw_byte b6) by auto.
  now destruct (read_string_body rest) as [[body tail] |].
Qed.

Lemma read_quote_body_bounded (n : nat) :
  forall s rest,
    String.length s <= n ->
    read_string_body (quote_body s ++ String dquote rest) = Some (s, rest).
Proof.
  induction n as [| n IH]; intros s rest Hlen.
  - destruct s; [reflexivity | cbn in Hlen; lia].
  - destruct s as [| c s1]; [reflexivity |].
    cbn [String.length] in Hlen.
    assert (Hplain :
              read_string_body
                ((escape_char c ++ quote_body s1) ++ String dquote rest)
              = Some (String c s1, rest)).
    { rewrite append_assoc, read_escape_char, IH by lia. reflexivity. }
    destruct s1 as [| b2 [| b3 s3]]; try exact Hplain.
    cbn [quote_body].
    destruct (is_surrogate c b2 b3) eqn:Hs; [| exact Hplain].
    cbn [String.length] in Hlen.
    assert (Hlone :
              read_string_body
                ((unicode_escape (surrogate_unit b2 b3) ++ quote_body s3)
                 ++ String dquote rest)
              = Some (String c (String b2 (String b3 s3)), rest)).
    { rewrite append_assoc, (read_surrogate_escape c b2 b3 _ Hs), IH by lia.
      reflexivity. }
    destruct s3 as [| c4 [| b5 [| b6 s6]]]; try exact Hlone.
    destruct (is_leading b2 && is_surrogate c4 b5 b6 && negb (is_leading b5))
      eqn:Hpair; [| exact Hlone].
    apply andb_true_iff in Hpair as [Hpair _].
    apply andb_true_iff in Hpair as [_ Hs'].
    cbn [append String.length] in *.
    rewrite (read_surrogate_pair c b2 b3 c4 b5 b6 _ Hs Hs'), IH by lia.
    reflexivity.
Qed.

Lemma read_quote_body (s rest : string) :
  read_string_body (quote_body s ++ String dquote rest) = Some (s, rest).
Proof. exact (read_quote_body_bounded (String.length s) s rest (le_n _)). Qed.

Lemma read_QuoteJSONString (s rest : string) :
  expect_char dquote (QuoteJSONString s ++ rest) = Some (quote_body s ++ String dquote rest).
Proof.
  unfold QuoteJSONString. cbn. now rewrite append_assoc.
Qed.

(** ** Numbers read back *)

Lemma number_eqb_eq (a b : number) : number_eqb a b = true -> a = b.
Proof.
  destruct a, b; cbn; try discriminate; intros H; try reflexivity.
  - apply Bool.eqb_prop in H. now subst.
  - apply Z.eqb_eq in H. now subst.
  - apply andb_true_iff in H as [H He]. apply andb_true_iff in H as [Hn Hm].
    apply Bool.eqb_prop in Hn. apply Pos.eqb_eq in Hm, He. now subst.
Qed.

Lemma denotes_sound negative x s j s' j' :
  denotes negative x s j = Some (s', j') ->
  (0 < s')%N /\ decimal_to_number negative s' j' = x.
Proof.
  unfold denotes. destruct (strip_zeros 40 s j) as [a b].
  destruct ((0 <? a)%N && number_eqb (decimal_to_number negative a b) x) eqn:E;
    [| discriminate].
  intros H. injection H as <- <-.
  apply andb_true_iff in E as [Hpos Heq].
  split; [now apply N.ltb_lt | now apply number_eqb_eq].
Qed.

Lemma with_digits_sound negative x p q n k s j :
  with_digits negative x p q n k = Some (s, j) ->
  (0 < s)%N /\ decimal_to_number negative s j = x.
Proof.
  unfold with_digits.
  repeat match goal with
         | |- context [denotes ?a ?b ?c ?d] =>
             let E := fresh "E" in
             destruct (denotes a b c d) as [[? ?] |] eqn:E;
             [apply denotes_sound in E |]
         end;
    repeat match goal with
           | |- context [if ?c then _ else _] => destruct c
           end;
    intros H; try discriminate H; injection H as <- <-; assumption.
Qed.

Lemma fewest_digits_sound fuel negative x p q n k s j :
  fewest_digits fuel negative x p q n k = Some (s, j) ->
  (0 < s)%N /\ decimal_to_number negative s j = x.
Proof.
  revert k. induction fuel as [| fuel IH]; intros k; cbn; [discriminate |].
  destruct (with_digits negative x p q n k) as [[a b] |] eqn:E.
  - intros H. injection H as <- <-. now apply with_digits_sound in E.
  - apply IH.
Qed.

Lemma exact_decimal_positive n negative M E :
  exact_decimal n = Some (negative, M, E) -> (0 < M)%N.
Proof.
  destruct n as [| | z | | neg m e]; cbn; try discriminate.
  - destruct z; try discriminate; intros H; injection H as <- <- <-; cbn; lia.
  - intros H. injection H as <- <- <-. lia.
Qed.

Lemma shortest_decimal_denotes n negative M E :
  exact_decimal n = Some (negative, M, E) ->
  representable n = true ->
  exists s j,
    shortest_decimal n = Some (negative, s, j)
    /\ (0 < s)%N
    /\ decimal_to_number negative s j = n.
Proof.
  intros Hexact Hrep. unfold shortest_decimal, representable in *.
  rewrite Hexact in *.
  pose proof (exact_decimal_positive _ _ _ _ Hexact) as Hpos.
  destruct M as [| m]; [lia |].
  destruct (fewest_digits _ _ _ _ _ _ _) as [[s j] |] eqn:Hf.
  - exists s, j. split; [reflexivity |]. eapply fewest_digits_sound; eauto.
  - exists (Npos m), E. split; [reflexivity |].
    split; [lia | now apply number_eqb_eq].
Qed.

(* ---------- digit strings ---------- *)

Lemma digits_value_uint (acc : N) (d : Decimal.uint) :
  digits_value acc (NilEmpty.string_of_uint d) = uint_value acc d.
Proof. revert acc. induction d; intros acc; cbn; auto. Qed.

Lemma uint_value_acc (acc : positive) (d : Decimal.uint) :
  uint_value (Npos acc) d = Npos (Pos.of_uint_acc d acc).
Proof.
  revert acc. induction d; intros acc; cbn [uint_value Pos.of_uint_acc];
    try reflexivity;
    match goal with
    | |- uint_value ?a _ = Npos (Pos.of_uint_acc _ ?b) =>
        replace a with (Npos b) by lia; apply IHd
    end.
Qed.

Lemma uint_value_of_uint (d : Decimal.uint) : uint_value 0 d = N.of_uint d.
Proof.
  induction d; cbn [uint_value]; try reflexivity;
    try (change (0 * 10 + 0)%N with 0%N; exact IHd);
    match goal with
    | |- uint_value ?a _ = _ =>
        let p := eval cbv in a in
        change a with p; rewrite uint_value_acc; reflexivity
    end.
Qed.

Lemma digits_value_digits (n : N) : digits_value 0 (digits n) = n.
Proof.
  unfold digits. rewrite digits_value_uint, uint_value_of_uint.
  apply DecimalN.Unsigned.of_to.
Qed.

Lemma digits_value_append (acc : N) (a b : string) :
  digits_value acc (a ++ b) = digits_value (digits_value acc a) b.
Proof. revert acc. induction a as [| c a IH]; intros acc; cbn; auto. Qed.

Lemma digits_value_zeros (acc : N) (n : nat) :
  digits_value acc (zeros n) = (acc * 10 ^ N.of_nat n)%N.
Proof.
  revert acc. induction n as [| n IH]; intros acc.
  - cbn. lia.
  - cbn [zeros digits_value]. rewrite IH.
    change (N_of_ascii "0" - 48)%N with 0%N.
    rewrite Nat2N.inj_succ, N.pow_succ_r'. lia.
Qed.

Lemma digits_value_leading_zeros (n : nat) (s : string) :
  digits_value 0 (zeros n ++ s) = digits_value 0 s.
Proof.
  rewrite digits_value_append, digits_value_zeros. now rewrite N.mul_0_l.
Qed.

Lemma all_digits_uint (d : Decimal.uint) :
  all_digits (NilEmpty.string_of_uint d) = true.
Proof. induction d; cbn; auto. Qed.

Lemma all_digits_digits (n : N) : all_digits (digits n) = true.
Proof. apply all_digits_uint. Qed.

Lemma all_digits_append (a b : string) :
  all_digits (a ++ b) = all_digits a && all_digits b.
Proof.
  induction a as [| c a IH]; cbn; [reflexivity |].
  now rewrite IH, andb_assoc.
Qed.

Lemma all_digits_zeros (n : nat) : all_digits (zeros n) = true.
Proof. induction n; cbn; auto. Qed.

Lemma span_digits_all (a rest : string) :
  all_digits a = true -> no_digit_ahead rest = true ->
  span_digits (a ++ rest) = (a, rest).
Proof.
  intros Ha Hrest. induction a as [| c a IH]; cbn.
  - destruct rest as [| c rest]; [reflexivity |].
    cbn in *. apply negb_true_iff in Hrest. now rewrite Hrest.
  - cbn in Ha. apply andb_true_iff in Ha as [Hc Ha].
    now rewrite Hc, (IH Ha).
Qed.

Lemma split_at_spec (n : nat) (s : string) :
  n <= String.length s ->
  (fst (split_at n s) ++ snd (split_at n s))%string = s
  /\ String.length (fst (split_at n s)) = n.
Proof.
  revert s. induction n as [| n IH]; intros s Hn.
  - destruct s; cbn; auto.
  - destruct s as [| c s]; cbn in *; [lia |].
    destruct (IH s ltac:(lia)) as [H1 H2].
    destruct (split_at n s) as [a b]. cbn in *. now rewrite H1, H2.
Qed.

(** The digits of a number that is not zero open with a digit that is
    not zero. *)
Lemma digits_head (s : N) :
  (0 < s)%N ->
  exists c more,
    digits s = String c more
    /\ is_digit c = true
    /\ Ascii.eqb c "0" = false.
Proof.
  intros Hs. pose proof (digits_value_digits s) as Hv.
  pose proof (all_digits_digits s) as Hall.
  destruct (digits s) as [| c more] eqn:E; [cbn in Hv; lia |].
  exists c, more. cbn in Hall. apply andb_true_iff in Hall as [Hc Hmore].
  split; [reflexivity | split; [exact Hc |]].
  destruct (Ascii.eqb_spec c "0") as [-> | ]; [| reflexivity].
  exfalso.
  (* a leading zero: the library prints none *)
  unfold digits in E.
  assert (Hnorm : Decimal.unorm (N.to_uint s) = N.to_uint s).
  { rewrite <- (DecimalN.Unsigned.of_to s) at 2.
    symmetry. apply DecimalN.Unsigned.to_of. }
  destruct (N.to_uint s) as [| u | u | u | u | u | u | u | u | u | u] eqn:Eu;
    cbn in E; try discriminate E.
  destruct u;
    try (rewrite DecimalFacts.unorm_D0 in Hnorm;
         match type of Hnorm with
         | Decimal.unorm ?x = _ =>
             assert (Hlen : Decimal.nb_digits (Decimal.unorm x)
                            <= Decimal.nb_digits x)
               by (apply DecimalFacts.nb_digits_unorm; discriminate);
             rewrite Hnorm in Hlen; cbn in Hlen; lia
         end).
  assert (s = 0%N) by (rewrite <- (DecimalN.Unsigned.of_to s), Eu; reflexivity).
  lia.
Qed.

(* ---------- reading what was laid out ---------- *)

Lemma ends_number_facts (rest : string) :
  ends_number rest = true ->
  no_digit_ahead rest = true
  /\ expect_char "." rest = None
  /\ read_exponent rest = Some (0%Z, rest).
Proof.
  destruct rest as [| c rest]; [auto |]. cbn [ends_number].
  intros H. apply negb_true_iff in H.
  repeat (apply orb_false_iff in H as [H ?]).
  cbn [no_digit_ahead expect_char read_exponent].
  rewrite H, (Ascii.eqb_sym "." c).
  repeat match goal with Hc : Ascii.eqb c _ = false |- _ => rewrite Hc; clear Hc end.
  auto.
Qed.

Lemma read_fraction_none (rest : string) :
  expect_char "." rest = None -> read_fraction rest = Some (EmptyString, rest).
Proof. unfold read_fraction. now intros ->. Qed.

Lemma read_fraction_some (f rest : string) :
  all_digits f = true -> f <> EmptyString -> no_digit_ahead rest = true ->
  read_fraction (String "." (f ++ rest)) = Some (f, rest).
Proof.
  intros Hf Hne Hrest. unfold read_fraction. cbn [expect_char].
  rewrite Ascii.eqb_refl, (span_digits_all f rest Hf Hrest).
  destruct f; [contradiction | reflexivity].
Qed.

Lemma expect_char_digit (c d : ascii) (s : string) :
  is_digit d = true -> is_digit c = false ->
  expect_char c (String d s) = None.
Proof.
  intros Hd Hc. cbn. destruct (Ascii.eqb_spec c d); [congruence | reflexivity].
Qed.

Lemma read_exponent_some (e : Z) (rest : string) :
  no_digit_ahead rest = true ->
  read_exponent
    (String "e" ((if (e <? 0)%Z then "-" else "+") ++ digits (Z.abs_N e) ++ rest))
  = Some (e, rest).
Proof.
  intros Hrest. unfold read_exponent.
  change (Ascii.eqb "e" "e" || Ascii.eqb "e" "E") with true. cbv iota.
  destruct (e <? 0)%Z eqn:Ee; cbn [append expect_char];
    rewrite ?Ascii.eqb_refl;
    change (Ascii.eqb "-" "+") with false; cbv iota;
    rewrite ?Ascii.eqb_refl;
    rewrite (span_digits_all _ rest (all_digits_digits _) Hrest);
    rewrite digits_value_digits;
    (destruct (digits (Z.abs_N e)) eqn:Ed;
     [ pose proof (digits_value_digits (Z.abs_N e)) as Hv;
       destruct (N.eq_dec (Z.abs_N e) 0) as [Hz | Hnz];
       [ rewrite Hz in Ed; discriminate Ed
       | destruct (digits_head (Z.abs_N e) ltac:(lia)) as (c & m & Hc & _);
         congruence ]
     | ]);
    f_equal; f_equal; rewrite N2Z.inj_abs_N.
  - apply Z.ltb_lt in Ee. lia.
  - apply Z.ltb_ge in Ee. lia.
Qed.

(** The common shape: an integer part, a fraction or none, an
    exponent or none. *)
Lemma read_unsigned_parts (negative : bool) (c : ascii)
  (more tail fraction after : string) (exponent : Z) (rest : string) :
  all_digits (String c more) = true ->
  Ascii.eqb c "0" && negb (String.eqb more EmptyString) = false ->
  no_digit_ahead tail = true ->
  read_fraction tail = Some (fraction, after) ->
  read_exponent after = Some (exponent, rest) ->
  read_unsigned negative (String c more ++ tail)
  = Some (decimal_to_number negative
            (digits_value 0 (String c more ++ fraction))
            (exponent - Z.of_nat (String.length fraction)),
          rest).
Proof.
  intros Hall Hzero Htail Hfrac Hexp. unfold read_unsigned.
  rewrite (span_digits_all _ tail Hall Htail), Hzero, Hfrac, Hexp.
  reflexivity.
Qed.

Lemma read_number_sign (negative : bool) (c : ascii) (text : string) :
  is_digit c = true ->
  read_number ((if negative then "-" else "") ++ String c text)
  = read_unsigned negative (String c text).
Proof.
  intros Hc. unfold read_number. destruct negative.
  - cbn [append expect_char]. now rewrite Ascii.eqb_refl.
  - cbn [append]. now rewrite (expect_char_digit "-" c text Hc eq_refl).
Qed.

Lemma decimal_with_zeros (negative : bool) (s : N) (z : nat) :
  (0 < s)%N ->
  decimal_to_number negative (s * 10 ^ N.of_nat z) 0
  = decimal_to_number negative s (Z.of_nat z).
Proof.
  intros Hs. unfold decimal_to_number.
  destruct s as [| p]; [lia |].
  assert (Hpow : (10 ^ N.of_nat z)%N = Npos (Z.to_pos (10 ^ Z.of_nat z))).
  { assert (0 < 10 ^ Z.of_nat z)%Z by (apply Z.pow_pos_nonneg; lia).
    apply N2Z.inj. rewrite N2Z.inj_pow. cbn [Z.of_N].
    rewrite nat_N_Z. rewrite Z2Pos.id by assumption. reflexivity. }
  rewrite Hpow. cbn [N.mul].
  change (0 <=? 0)%Z with true. cbv iota.
  change (Z.to_pos (10 ^ 0)) with 1%positive. rewrite Pos.mul_1_r.
  destruct (0 <=? Z.of_nat z)%Z eqn:E; [reflexivity |].
  apply Z.leb_gt in E. lia.
Qed.

Ltac same_exponent :=
  match goal with
  | |- Some (decimal_to_number _ _ ?x, _) = Some (decimal_to_number _ _ ?y, _) =>
      replace x with y by lia; reflexivity
  end.

Lemma read_formatted (negative : bool) (s : N) (j : Z) (rest : string) :
  (0 < s)%N ->
  ends_number rest = true ->
  read_number ((if negative then "-" else "") ++ format_decimal s j ++ rest)
  = Some (decimal_to_number negative s j, rest).
Proof.
  intros Hs Hrest.
  destruct (ends_number_facts rest Hrest) as (Hahead & Hpoint & Hexp).
  destruct (digits_head s Hs) as (c & more & Hds & Hc & Hnz).
  pose proof (all_digits_digits s) as Hall.
  pose proof (digits_value_digits s) as Hval.
  unfold format_decimal. rewrite Hds in *.
  set (k := Z.of_nat (String.length (String c more))).
  assert (Hk : k = (1 + Z.of_nat (String.length more))%Z)
    by (unfold k; cbn [String.length]; lia).
  set (n := (k + j)%Z).
  assert (Hn : n = (k + j)%Z) by reflexivity.
  clearbody n. clearbody k.
  destruct ((k <=? n)%Z && (n <=? 21)%Z) eqn:C1.
  { (* digits, then zeros *)
    apply andb_true_iff in C1 as [C1 _]. apply Z.leb_le in C1.
    replace (Z.to_nat (n - k)) with (Z.to_nat j) by lia.
    rewrite append_assoc. cbn [append].
    rewrite (read_number_sign negative c _ Hc).
    change (String c (more ++ zeros (Z.to_nat j) ++ rest))
      with (String c (more ++ zeros (Z.to_nat j) ++ rest)).
    rewrite <- (append_assoc more).
    change (String c ((more ++ zeros (Z.to_nat j)) ++ rest))
      with (String c (more ++ zeros (Z.to_nat j)) ++ rest)%string.
    rewrite (read_unsigned_parts negative c (more ++ zeros (Z.to_nat j)) rest
               EmptyString rest 0 rest).
    - rewrite append_nil_r. cbn [String.length].
      change (String c (more ++ zeros (Z.to_nat j)))
        with (String c more ++ zeros (Z.to_nat j))%string.
      rewrite digits_value_append, Hval, digits_value_zeros.
      change (0 - Z.of_nat 0)%Z with 0%Z.
      rewrite (decimal_with_zeros negative s (Z.to_nat j) Hs).
      rewrite Z2Nat.id by lia. reflexivity.
    - change (String c (more ++ zeros (Z.to_nat j)))
        with (String c more ++ zeros (Z.to_nat j))%string.
      now rewrite all_digits_append, Hall, all_digits_zeros.
    - now rewrite Hnz.
    - exact Hahead.
    - now apply read_fraction_none.
    - exact Hexp. }
  destruct ((0 <? n)%Z && (n <=? 21)%Z) eqn:C2.
  { (* a point among the digits *)
    apply andb_true_iff in C2 as [C2 C2']. apply Z.ltb_lt in C2.
    apply Z.leb_le in C2'.
    assert (Hnk : (n < k)%Z).
    { apply andb_false_iff in C1 as [C1 | C1];
        [apply Z.leb_gt in C1; lia | apply Z.leb_gt in C1; lia]. }
    destruct (split_at_spec (Z.to_nat n) (String c more)
                ltac:(cbn [String.length]; lia)) as [Hcat Hlen].
    destruct (split_at (Z.to_nat n) (String c more)) as [a b] eqn:Esplit.
    cbn [fst snd] in Hcat, Hlen.
    assert (Hab : all_digits a = true /\ all_digits b = true).
    { rewrite <- Hcat, all_digits_append in Hall.
      now apply andb_true_iff in Hall. }
    destruct Hab as [Ha Hb].
    assert (Hblen : String.length b = Z.to_nat (k - n)).
    { pose proof (f_equal String.length Hcat) as Hl.
      rewrite length_append, Hlen in Hl. cbn [String.length] in Hl. lia. }
    destruct a as [| c' a']; [cbn in Hlen; lia |].
    cbn [append] in Hcat. injection Hcat as -> Hmore.
    rewrite !append_assoc. cbn [append].
    rewrite (read_number_sign negative c _ Hc).
    change (String c (a' ++ String "." (b ++ rest)))
      with (String c a' ++ String "." (b ++ rest))%string.
    rewrite (read_unsigned_parts negative c a' (String "." (b ++ rest))
               b rest 0 rest).
    - cbn [append]. rewrite Hmore, Hval, Hblen.
      same_exponent.
    - exact Ha.
    - now rewrite Hnz.
    - reflexivity.
    - apply read_fraction_some; [exact Hb | | exact Hahead].
      intros ->. cbn in Hblen. lia.
    - exact Hexp. }
  destruct ((-6 <? n)%Z && (n <=? 0)%Z) eqn:C3.
  { (* zero, a point, zeros, the digits *)
    apply andb_true_iff in C3 as [_ C3]. apply Z.leb_le in C3.
    cbn [append].
    rewrite (read_number_sign negative "0" _ eq_refl).
    change (String "0" (String "." ((zeros (Z.to_nat (- n)) ++ String c more) ++ rest)))
      with (String "0" EmptyString
            ++ String "." ((zeros (Z.to_nat (- n)) ++ String c more) ++ rest))%string.
    rewrite (read_unsigned_parts negative "0" EmptyString
               (String "." ((zeros (Z.to_nat (- n)) ++ String c more) ++ rest))
               (zeros (Z.to_nat (- n)) ++ String c more) rest 0 rest).
    - change (String "0" EmptyString ++ zeros (Z.to_nat (- n)) ++ String c more)%string
        with (zeros (S (Z.to_nat (- n))) ++ String c more)%string.
      rewrite digits_value_leading_zeros, Hval.
      rewrite length_append.
      assert (Hz : forall m, String.length (zeros m) = m)
        by (induction m; cbn; auto).
      rewrite Hz. cbn [String.length].
      same_exponent.
    - reflexivity.
    - reflexivity.
    - reflexivity.
    - apply read_fraction_some; [| | exact Hahead].
      + now rewrite all_digits_append, all_digits_zeros, Hall.
      + destruct (zeros (Z.to_nat (- n))); discriminate.
    - exact Hexp. }
  (* one digit, the others after a point, an exponent *)
  set (e := (n - 1)%Z).
  destruct more as [| c2 more'].
  - cbn [append].
    rewrite (read_number_sign negative c _ Hc).
    rewrite append_assoc.
    change (String c (String "e" ((if (e <? 0)%Z then "-" else "+")
                                  ++ (digits (Z.abs_N e)) ++ rest)))
      with (String c EmptyString
            ++ String "e" ((if (e <? 0)%Z then "-" else "+")
                           ++ digits (Z.abs_N e) ++ rest))%string.
    rewrite (read_unsigned_parts negative c EmptyString
               (String "e" ((if (e <? 0)%Z then "-" else "+")
                            ++ digits (Z.abs_N e) ++ rest))
               EmptyString
               (String "e" ((if (e <? 0)%Z then "-" else "+")
                            ++ digits (Z.abs_N e) ++ rest))
               e rest).
    + rewrite append_nil_r, Hval. cbn [String.length].
      unfold e. cbn [String.length] in Hk. same_exponent.
    + exact Hall.
    + now rewrite Hnz.
    + reflexivity.
    + apply read_fraction_none. reflexivity.
    + now apply read_exponent_some.
  - cbn [append].
    rewrite (read_number_sign negative c _ Hc).
    rewrite !append_assoc. cbn [append]. rewrite !append_assoc.
    change (String c (String "." (String c2 (more' ++ String "e" ((if (e <? 0)%Z then "-" else "+") ++ digits (Z.abs_N e) ++ rest)))))
      with (String c EmptyString
            ++ String "." (String c2 more'
                           ++ String "e" ((if (e <? 0)%Z then "-" else "+")
                                          ++ digits (Z.abs_N e) ++ rest)))%string.
    cbn [all_digits] in Hall.
    apply andb_true_iff in Hall as [_ Hall].
    rewrite (read_unsigned_parts negative c EmptyString
               (String "." (String c2 more'
                            ++ String "e" ((if (e <? 0)%Z then "-" else "+")
                                           ++ digits (Z.abs_N e) ++ rest)))
               (String c2 more')
               (String "e" ((if (e <? 0)%Z then "-" else "+")
                            ++ digits (Z.abs_N e) ++ rest))
               e rest).
    + change (String c EmptyString ++ String c2 more')%string
        with (String c (String c2 more')).
      rewrite Hval. unfold e. cbn [String.length] in *. same_exponent.
    + cbn. now rewrite Hc.
    + now rewrite Hnz.
    + reflexivity.
    + apply read_fraction_some; [exact Hall | discriminate | reflexivity].
    + now apply read_exponent_some.
Qed.

Lemma read_zero (rest : string) :
  ends_number rest = true ->
  read_number ("0" ++ rest) = Some (Int 0, rest).
Proof.
  intros Hrest.
  destruct (ends_number_facts rest Hrest) as (Hahead & Hpoint & Hexp).
  change ("0" ++ rest)%string
    with ((if false then "-" else "") ++ String "0" (EmptyString ++ rest))%string.
  rewrite (read_number_sign false "0" _ eq_refl).
  change (String "0" (EmptyString ++ rest))
    with (String "0" EmptyString ++ rest)%string.
  rewrite (read_unsigned_parts false "0" EmptyString rest EmptyString rest 0 rest);
    auto using read_fraction_none.
Qed.

(** A number that is finite, stands for a double and is not the negative
    zero reads back from the text that [Number::toString] gives it. *)
Lemma read_Number_toString (n : number) (rest : string) :
  is_finite n = true ->
  representable n = true ->
  n <> NegativeZero ->
  ends_number rest = true ->
  read_number (Number_toString n ++ rest) = Some (n, rest).
Proof.
  intros Hfin Hrep Hnz Hrest.
  destruct (exact_decimal n) as [[[negative M] E] |] eqn:Hexact.
  - destruct (shortest_decimal_denotes n negative M E Hexact Hrep)
      as (s & j & Hshort & Hs & Hden).
    assert (Htext : Number_toString n
                    = ((if negative then "-" else "") ++ format_decimal s j)%string).
    { destruct n; try discriminate Hfin; try discriminate Hexact;
        unfold Number_toString; rewrite Hshort; now destruct negative. }
    rewrite Htext, append_assoc, (read_formatted negative s j rest Hs Hrest).
    now rewrite Hden.
  - assert (n = Int 0) as ->.
    { destruct n as [| | z | |]; try discriminate; try congruence.
      destruct z; [reflexivity | discriminate | discriminate]. }
    now apply read_zero.
Qed.

Lemma read_number_head (c : ascii) (t : string) (r : number * string) :
  read_number (String c t) = Some r ->
  is_digit c = true \/ c = "-"%char.
Proof.
  unfold read_number. cbn [expect_char].
  destruct (Ascii.eqb_spec "-" c) as [<- | _]; [now right |].
  unfold read_unsigned. cbn [span_digits].
  destruct (is_digit c); [now left |]. discriminate.
Qed.

Lemma Number_toString_head (n : number) :
  is_finite n = true ->
  representable n = true ->
  n <> NegativeZero ->
  exists c t, Number_toString n = String c t
              /\ (is_digit c = true \/ c = "-"%char).
Proof.
  intros Hfin Hrep Hnz.
  pose proof (read_Number_toString n EmptyString Hfin Hrep Hnz eq_refl) as H.
  rewrite append_nil_r in H.
  destruct (Number_toString n) as [| c t]; [discriminate H |].
  exists c, t. split; [reflexivity |]. exact (read_number_head c t _ H).
Qed.

(** ** Integers that a double holds *)

Lemma odd_part_spec (m o : positive) (t : Z) :
  odd_part m = (o, t) ->
  (Zpos m = Zpos o * 2 ^ t /\ 0 <= t /\ Z.odd (Zpos o) = true)%Z.
Proof.
  revert o t. induction m as [m IH | m IH |]; intros o t H; cbn in H.
  - injection H as <- <-. split; [| split]; [cbn; lia | lia | reflexivity].
  - destruct (odd_part m) as [o' t'] eqn:E. injection H as <- <-.
    destruct (IH o' t' eq_refl) as (Hm & Ht & Hodd).
    split; [| split]; [| lia | exact Hodd].
    rewrite Pos2Z.inj_xO, Hm, Z.pow_add_r by lia. lia.
  - injection H as <- <-. split; [| split]; [reflexivity | lia | reflexivity].
Qed.

Lemma of_binary_integer (negative : bool) (p : positive) (k : Z) :
  (0 <= k)%Z ->
  of_binary negative (Z.to_pos (Zpos p * 2 ^ k)) (- k)
  = Int (if negative then Zneg p else Zpos p).
Proof.
  intros Hk. unfold of_binary.
  assert (Hpos : (0 < Zpos p * 2 ^ k)%Z)
    by (apply Z.mul_pos_pos; [lia | apply Z.pow_pos_nonneg; lia]).
  destruct (odd_part (Z.to_pos (Zpos p * 2 ^ k))) as [o t] eqn:E.
  destruct (odd_part_spec _ _ _ E) as (Hm & Ht & Hodd).
  rewrite Z2Pos.id in Hm by exact Hpos.
  assert (Hkt : (k <= t)%Z).
  { destruct (Z.le_gt_cases k t) as [? | Hlt]; [assumption | exfalso].
    replace k with (t + (k - t))%Z in Hm by lia.
    rewrite Z.pow_add_r in Hm by lia.
    assert (H2 : (0 < 2 ^ t)%Z) by (apply Z.pow_pos_nonneg; lia).
    assert (Ho : (Zpos o = Zpos p * 2 ^ (k - t))%Z) by nia.
    replace (k - t)%Z with (Z.succ (k - t - 1)) in Ho by lia.
    rewrite Z.pow_succ_r in Ho by lia.
    rewrite Ho in Hodd.
    replace (Zpos p * (2 * 2 ^ (k - t - 1)))%Z
      with (2 * (Zpos p * 2 ^ (k - t - 1)))%Z in Hodd by lia.
    rewrite Z.odd_mul in Hodd. discriminate Hodd. }
  replace (- k + t)%Z with (t - k)%Z by lia.
  destruct (0 <=? t - k)%Z eqn:Ele; [| apply Z.leb_gt in Ele; lia].
  assert (Hval : (Zpos o * 2 ^ (t - k) = Zpos p)%Z).
  { replace t with (k + (t - k))%Z in Hm at 1 by lia.
    rewrite Z.pow_add_r in Hm by lia.
    assert (H2 : (0 < 2 ^ k)%Z) by (apply Z.pow_pos_nonneg; lia).
    nia. }
  rewrite Hval. now destruct negative.
Qed.

Lemma nearest_double_integer (negative : bool) (p : positive) :
  (Zpos p < 2 ^ 53)%Z ->
  nearest_double negative p 1 = Int (if negative then Zneg p else Zpos p).
Proof.
  intros Hp. unfold nearest_double.
  change (Z.log2 1) with 0%Z. rewrite Z.sub_0_r.
  set (L := Z.log2 (Zpos p)).
  assert (HL : (0 <= L < 53)%Z).
  { split; [apply Z.log2_nonneg |].
    apply Z.log2_lt_pow2; lia. }
  assert (Hspec : (2 ^ L <= Zpos p)%Z) by (apply Z.log2_spec; lia).
  destruct (0 <=? L)%Z eqn:E0; [| apply Z.leb_gt in E0; lia].
  rewrite Z.mul_1_l.
  destruct (2 ^ L <=? Zpos p)%Z eqn:E1; [| apply Z.leb_gt in E1; lia].
  replace (Z.max (L - 52) (-1074)) with (- (52 - L))%Z by lia.
  set (k := (52 - L)%Z). assert (Hk : (0 <= k)%Z) by (unfold k; lia).
  assert (H2k : (0 < 2 ^ k)%Z) by (apply Z.pow_pos_nonneg; lia).
  rewrite Z.opp_involutive.
  destruct (0 <=? - k)%Z eqn:E2.
  - apply Z.leb_le in E2. assert (k = 0%Z) as Hk0 by lia.
    rewrite Hk0. cbn [Z.opp Z.pow Z.pow_pos Pos.iter Z.mul Pos.mul].
    rewrite Z.div_1_r, Z.mod_1_r. cbn [Z.mul Z.ltb Z.compare].
    cbn [Z.ltb Z.eqb Z.leb Z.compare Pos.compare Pos.compare_cont orb andb].
    change (971 <? 0)%Z with false. change (0 =? 971)%Z with false.
    cbn [orb andb].
    pose proof (of_binary_integer negative p 0 (Z.le_refl 0)) as H.
    cbn [Z.pow Z.opp] in H. rewrite Z.mul_1_r in H. exact H.
  - rewrite Z.div_1_r, Z.mod_1_r.
    change (2 * 0 <? 1)%Z with true. cbv iota.
    destruct (Zpos p * 2 ^ k)%Z as [| m |] eqn:Em; try lia.
    assert (Hsmall : ((971 <? - k) || (- k =? 971) && (2 ^ 53 <=? Zpos m))%Z
                     = false).
    { apply orb_false_iff. split; [apply Z.ltb_ge; lia |].
      apply andb_false_iff. left. apply Z.eqb_neq. lia. }
    rewrite Hsmall.
    pose proof (of_binary_integer negative p k Hk) as H.
    rewrite Em in H. exact H.
Qed.

(** Every integer of magnitude below [2^53] stands for a double. *)
Lemma representable_integer (z : Z) :
  (Z.abs z < 2 ^ 53)%Z -> representable (Int z) = true.
Proof.
  intros Hz. unfold representable.
  destruct z as [| p | p]; [reflexivity | |];
    cbn [exact_decimal Z.ltb Z.compare Z.abs_N Z.abs];
    unfold decimal_to_number;
    change (0 <=? 0)%Z with true; cbv iota;
    change (Z.to_pos (10 ^ 0)) with 1%positive; rewrite Pos.mul_1_r;
    rewrite nearest_double_integer by exact Hz;
    cbn [number_eqb]; apply Z.eqb_refl.
Qed.

(** ** Records read back *)

Lemma insert_member_last (k : string) (v : jsval)
  (acc : list (string * jsval)) :
  forallb (fun a => negb (key_before k a)) (map fst acc) = true ->
  insert_member k v acc = (acc ++ [(k, v)])%list.
Proof.
  induction acc as [| [k' v'] acc IH]; cbn; [reflexivity |].
  intros H. apply andb_true_iff in H as [Hk Hrest].
  apply negb_true_iff in Hk. rewrite Hk, (IH Hrest). reflexivity.
Qed.

Lemma obj_set_fresh (k : string) (v : jsval) (acc : list (string * jsval)) :
  existsb (String.eqb k) (map fst acc) = false ->
  forallb (fun a => negb (key_before k a)) (map fst acc) = true ->
  obj_set k v acc = (acc ++ [(k, v)])%list.
Proof.
  intros Hfresh Horder. unfold obj_set. rewrite Hfresh.
  now apply insert_member_last.
Qed.

Lemma distinct_middle (acc : list string) (k : string) (l : list string) :
  distinct (acc ++ k :: l)%list = true ->
  existsb (String.eqb k) acc = false.
Proof.
  induction acc as [| a acc IH]; cbn; [reflexivity |].
  intros H. apply andb_true_iff in H as [Ha Hd].
  apply negb_true_iff in Ha. rewrite existsb_app in Ha.
  apply orb_false_iff in Ha as [_ Ha]. cbn in Ha.
  apply orb_false_iff in Ha as [Ha _].
  rewrite String.eqb_sym, Ha. exact (IH Hd).
Qed.

Lemma ordered_middle (acc : list string) (k : string) (l : list string) :
  ordered_keys (acc ++ k :: l)%list = true ->
  forallb (fun a => negb (key_before k a)) acc = true.
Proof.
  induction acc as [| a acc IH]; cbn; [reflexivity |].
  intros H. apply andb_true_iff in H as [Ha Ho].
  rewrite forallb_app in Ha. apply andb_true_iff in Ha as [_ Ha].
  cbn in Ha. apply andb_true_iff in Ha as [Ha _].
  rewrite Ha. exact (IH Ho).
Qed.

Lemma fold_obj_set (l acc : list (string * jsval)) :
  distinct (map fst (acc ++ l)%list) = true ->
  ordered_keys (map fst (acc ++ l)%list) = true ->
  fold_left (fun o kv => obj_set (fst kv) (snd kv) o) l acc = (acc ++ l)%list.
Proof.
  revert acc. induction l as [| [k v] l IH]; intros acc H Ho; cbn.
  - now rewrite List.app_nil_r.
  - rewrite map_app in H, Ho. cbn in H, Ho.
    rewrite (obj_set_fresh _ _ _ (distinct_middle _ _ _ H)
               (ordered_middle _ _ _ Ho)).
    rewrite IH.
    + now rewrite <- app_assoc.
    + rewrite <- app_assoc, map_app. exact H.
    + rewrite <- app_assoc, map_app. exact Ho.
Qed.

(** Members with distinct keys, in the order in which an object lists
    its keys, make the object that lists them so. *)
Lemma obj_of_members_ordered (l : list (string * jsval)) :
  distinct (map fst l) = true ->
  ordered_keys (map fst l) = true ->
  obj_of_members l = l.
Proof. intros H Ho. exact (fold_obj_set l [] H Ho). Qed.

(** ** Values read back *)

Lemma opens_value_head (t : string) :
  opens_value t = true ->
  exists c t',
    t = String c t'
    /\ is_ws c = false
    /\ Ascii.eqb "]" c = false /\ Ascii.eqb "}" c = false
    /\ Ascii.eqb "," c = false /\ Ascii.eqb ":" c = false.
Proof.
  destruct t as [| c t']; [discriminate |]. unfold opens_value.
  intros H. apply negb_true_iff in H.
  repeat (apply orb_false_iff in H as [H ?]).
  exists c, t'. rewrite !(Ascii.eqb_sym _ c). unfold is_ws.
  rewrite H, H6, H5, H4. auto 10.
Qed.

Lemma opens_value_append (t u : string) :
  opens_value t = true -> opens_value (t ++ u) = true.
Proof. destruct t; [discriminate | auto]. Qed.

Lemma skip_ws_opens (t rest : string) :
  opens_value t = true -> skip_ws (t ++ rest) = (t ++ rest)%string.
Proof.
  intros H. destruct (opens_value_head t H) as (c & t' & -> & Hws & _).
  cbn. now rewrite Hws.
Qed.

Lemma skip_ws_keep (c : ascii) (s : string) :
  is_ws c = false -> skip_ws (String c s) = String c s.
Proof. intros H. cbn [skip_ws]. now rewrite H. Qed.

Lemma expect_char_here (c : ascii) (rest : string) :
  expect_char c (String c rest) = Some rest.
Proof. cbn. now rewrite Ascii.eqb_refl. Qed.

Lemma expect_closing (t rest : string) :
  opens_value t = true ->
  expect_char "]" (t ++ rest) = None
  /\ expect_char "}" (t ++ rest) = None
  /\ expect_char "," (t ++ rest) = None.
Proof.
  intros H.
  destruct (opens_value_head t H) as (c & t' & -> & _ & H1 & H2 & H3 & _).
  change (String c t' ++ rest)%string with (String c (t' ++ rest)).
  cbn [expect_char]. now rewrite H1, H2, H3.
Qed.

Lemma parse_number_head (c : ascii) (s : string) (fuel : nat) :
  is_digit c = true \/ c = "-"%char ->
  parse_value (S fuel) (String c s)
  = match read_number (String c s) with
    | Some (n, rest) => Some (VNum n, rest)
    | None => None
    end
  /\ opens_value (String c s) = true.
Proof.
  intros [H | ->]; [| split; reflexivity].
  destruct c as [[|] [|] [|] [|] [|] [|] [|] [|]];
    try discriminate H; split; reflexivity.
Qed.

Lemma number_reads_back (n : number) :
  is_finite n = true ->
  representable n = true ->
  n <> NegativeZero ->
  reads_back (VNum n) (Number_toString n).
Proof.
  intros Hfin Hrep Hnz.
  destruct (Number_toString_head n Hfin Hrep Hnz) as (c & t & E & Hc). split.
  - rewrite E. exact (proj2 (parse_number_head c t 0 Hc)).
  - intros fuel rest Hfuel Hrest.
    destruct fuel as [| fuel]; [rewrite E in Hfuel; cbn in Hfuel; lia |].
    pose proof (read_Number_toString n rest Hfin Hrep Hnz Hrest) as Hread.
    rewrite E in *.
    change (String c t ++ rest)%string with (String c (t ++ rest)) in *.
    now rewrite (proj1 (parse_number_head c (t ++ rest) fuel Hc)), Hread.
Qed.

Lemma string_reads_back (s : string) :
  reads_back (VStr s) (QuoteJSONString s).
Proof.
  split; [reflexivity |].
  intros fuel rest Hfuel _.
  destruct fuel as [| fuel]; [cbn in Hfuel; lia |].
  unfold QuoteJSONString.
  change (parse_value (S fuel)
            (String dquote ((quote_body s ++ String dquote EmptyString) ++ rest))
          = Some (VStr s, rest)).
  rewrite append_assoc. cbn [append].
  cbn. now rewrite read_quote_body.
Qed.

Lemma literal_reads_back (v : jsval) (t : string) :
  (v = VNull /\ t = "null")
  \/ (v = VBool true /\ t = "true")
  \/ (v = VBool false /\ t = "false") ->
  reads_back v t.
Proof.
  intros [[-> ->] | [[-> ->] | [-> ->]]]; (split; [reflexivity |]);
    intros fuel rest Hfuel _;
    (destruct fuel as [| fuel]; [cbn in Hfuel; lia | reflexivity]).
Qed.

Lemma parse_elements_eq (fuel : nat) (s : string) :
  parse_elements (S fuel) s
  = match parse_value fuel s with
    | None => None
    | Some (v, s1) =>
        match expect_char "," (skip_ws s1) with
        | Some s2 =>
            match parse_elements fuel s2 with
            | Some (vs, rest) => Some (v :: vs, rest)
            | None => None
            end
        | None =>
            match expect_char "]" (skip_ws s1) with
            | Some rest => Some ([v], rest)
            | None => None
            end
        end
    end.
Proof. reflexivity. Qed.

Lemma parse_members_eq (fuel : nat) (s : string) :
  parse_members (S fuel) s
  = match expect_char dquote (skip_ws s) with
    | None => None
    | Some s1 =>
        match read_string_body s1 with
        | None => None
        | Some (k, s2) =>
            match expect_char ":" (skip_ws s2) with
            | None => None
            | Some s3 =>
                match parse_value fuel s3 with
                | None => None
                | Some (v, s4) =>
                    match expect_char "," (skip_ws s4) with
                    | Some s5 =>
                        match parse_members fuel s5 with
                        | Some (ms, rest) => Some ((k, v) :: ms, rest)
                        | None => None
                        end
                    | None =>
                        match expect_char "}" (skip_ws s4) with
                        | Some rest => Some ([(k, v)], rest)
                        | None => None
                        end
                    end
                end
            end
        end
    end.
Proof. reflexivity. Qed.

Lemma elements_read_back (l : list jsval) :
  Forall serializes_and_reads_back l ->
  forallb well_formed l = true ->
  forallb own_key_order l = true ->
  forallb is_data l = true ->
  forallb negative_zero_free l = true ->
  exists parts,
    serialize_elements SerializeJSONProperty l = Normal parts
    /\ (l = [] -> parts = [])
    /\ (l <> [] ->
        opens_value (join "," parts) = true
        /\ forall fuel rest,
            2 * String.length (join "," parts) + 1 <= fuel ->
            parse_elements fuel (join "," parts ++ String "]" rest)
            = Some (l, rest)).
Proof.
  induction 1 as [| x l Hx Hl IH]; intros Hwf Hord Hdata Hnz.
  - exists []. split; [reflexivity |].
    split; [reflexivity | intros Hne; now destruct Hne].
  - cbn in Hwf, Hord, Hdata, Hnz.
    apply andb_true_iff in Hwf as [Hwx Hwl].
    apply andb_true_iff in Hord as [Hox Hol].
    apply andb_true_iff in Hdata as [Hdx Hdl].
    apply andb_true_iff in Hnz as [Hzx Hzl].
    destruct (Hx Hwx Hox Hdx Hzx) as (t & Hser & Hopen & Hread).
    destruct (IH Hwl Hol Hdl Hzl) as (parts & Hsers & Hnil & Hcons).
    exists (t :: parts). cbn [serialize_elements]. rewrite Hser, Hsers.
    split; [reflexivity |]. split; [discriminate |]. intros _.
    destruct l as [| y l].
    + rewrite (Hnil eq_refl). cbn [join]. split; [exact Hopen |].
      intros fuel rest Hfuel.
      destruct fuel as [| fuel]; [lia |].
      rewrite parse_elements_eq, Hread by (reflexivity || lia).
      reflexivity.
    + destruct Hcons as [Hopen' Hreads]; [discriminate |].
      destruct parts as [| t2 ps]; [discriminate Hopen' |].
      change (join "," (t :: t2 :: ps))
        with (t ++ "," ++ join "," (t2 :: ps))%string.
      split; [now apply opens_value_append |].
      intros fuel rest Hfuel.
      rewrite length_separated in Hfuel.
      destruct fuel as [| fuel]; [lia |].
      rewrite append_assoc. cbn [append].
      rewrite parse_elements_eq, Hread by (reflexivity || lia).
      rewrite skip_ws_keep, expect_char_here by reflexivity.
      rewrite Hreads by (cbn [String.length]; lia).
      reflexivity.
Qed.

Lemma member_opens (k t : string) :
  opens_value (QuoteJSONString k ++ ":" ++ t) = true.
Proof. reflexivity. Qed.

Lemma member_key_read (k t rest : string) :
  expect_char dquote (skip_ws ((QuoteJSONString k ++ ":" ++ t) ++ rest))
  = Some (quote_body k ++ String dquote (String ":" (t ++ rest))).
Proof.
  rewrite skip_ws_opens by apply member_opens.
  rewrite !append_assoc. rewrite read_QuoteJSONString. reflexivity.
Qed.

Lemma members_read_back (l : list (string * jsval)) :
  Forall (fun kv => serializes_and_reads_back (snd kv)) l ->
  forallb (fun kv => well_formed (snd kv)) l = true ->
  forallb (fun kv => own_key_order (snd kv)) l = true ->
  forallb (fun kv => is_data (snd kv)) l = true ->
  forallb (fun kv => negative_zero_free (snd kv)) l = true ->
  exists parts,
    serialize_members SerializeJSONProperty l = Normal parts
    /\ (l = [] -> parts = [])
    /\ (l <> [] ->
        opens_value (join "," parts) = true
        /\ forall fuel rest,
            2 * String.length (join "," parts) + 1 <= fuel ->
            parse_members fuel (join "," parts ++ String "}" rest)
            = Some (l, rest)).
Proof.
  induction 1 as [| [k x] l Hx Hl IH]; intros Hwf Hord Hdata Hnz.
  - exists []. split; [reflexivity |].
    split; [reflexivity | intros Hne; now destruct Hne].
  - cbn in Hwf, Hord, Hdata, Hnz, Hx.
    apply andb_true_iff in Hwf as [Hwx Hwl].
    apply andb_true_iff in Hord as [Hox Hol].
    apply andb_true_iff in Hdata as [Hdx Hdl].
    apply andb_true_iff in Hnz as [Hzx Hzl].
    destruct (Hx Hwx Hox Hdx Hzx) as (t & Hser & Hopen & Hread).
    destruct (IH Hwl Hol Hdl Hzl) as (parts & Hsers & Hnil & Hcons).
    exists ((QuoteJSONString k ++ ":" ++ t)%string :: parts).
    cbn [serialize_members]. rewrite Hser, Hsers.
    split; [reflexivity |]. split; [discriminate |]. intros _.
    assert (Hlen : String.length t + 3
                   <= String.length (QuoteJSONString k ++ ":" ++ t)).
    { rewrite length_append. unfold QuoteJSONString.
      cbn [String.length append]. rewrite length_append.
      cbn [String.length]. lia. }
    destruct l as [| y l].
    + rewrite (Hnil eq_refl). cbn [join]. split; [apply member_opens |].
      intros fuel rest Hfuel.
      destruct fuel as [| fuel]; [lia |].
      rewrite parse_members_eq, (member_key_read k t _).
      rewrite read_quote_body.
      rewrite skip_ws_keep, expect_char_here by reflexivity.
      rewrite Hread by (reflexivity || lia). reflexivity.
    + destruct Hcons as [Hopen' Hreads]; [discriminate |].
      destruct parts as [| t2 ps]; [discriminate Hopen' |].
      change (join "," ((QuoteJSONString k ++ ":" ++ t)%string :: t2 :: ps))
        with ((QuoteJSONString k ++ ":" ++ t) ++ "," ++ join "," (t2 :: ps))%string.
      split; [reflexivity |].
      intros fuel rest Hfuel.
      rewrite length_separated in Hfuel.
      destruct fuel as [| fuel]; [lia |].
      rewrite (append_assoc (QuoteJSONString k ++ ":" ++ t)).
      cbn [append].
      rewrite parse_members_eq, (member_key_read k t _).
      rewrite read_quote_body.
      rewrite skip_ws_keep, expect_char_here by reflexivity.
      rewrite Hread by (reflexivity || lia).
      rewrite skip_ws_keep, expect_char_here by reflexivity.
      rewrite Hreads by (cbn [String.length]; lia).
      reflexivity.
Qed.

Lemma parse_value_eq (fuel : nat) (c : ascii) (s : string) :
  is_ws c = false ->
  parse_value (S fuel) (String c s)
  = if Ascii.eqb c "n" then
      match strip_prefix "ull" s with
      | Some rest => Some (VNull, rest)
      | None => None
      end
    else if Ascii.eqb c "t" then
      match strip_prefix "rue" s with
      | Some rest => Some (VBool true, rest)
      | None => None
      end
    else if Ascii.eqb c "f" then
      match strip_prefix "alse" s with
      | Some rest => Some (VBool false, rest)
      | None => None
      end
    else if Ascii.eqb c dquote then
      match read_string_body s with
      | Some (str, rest) => Some (VStr str, rest)
      | None => None
      end
    else if Ascii.eqb c "[" then
      match expect_char "]" (skip_ws s) with
      | Some rest => Some (VArray [], rest)
      | None =>
          match parse_elements fuel s with
          | Some (items, rest) => Some (VArray items, rest)
          | None => None
          end
      end
    else if Ascii.eqb c "{" then
      match expect_char "}" (skip_ws s) with
      | Some rest => Some (VRecord [], rest)
      | None =>
          match parse_members fuel s with
          | Some (members, rest) =>
              Some (VRecord (obj_of_members members), rest)
          | None => None
          end
      end
    else
      match read_number (String c s) with
      | Some (n, rest) => Some (VNum n, rest)
      | None => None
      end.
Proof.
  intros H. cbn [parse_value]. now rewrite skip_ws_keep.
Qed.

Lemma data_reads_back (v : jsval) : serializes_and_reads_back v.
Proof.
  induction v using jsval_rect'; unfold serializes_and_reads_back;
    intros Hwf Hord Hdata Hnz; try discriminate Hdata.
  - exists "null". split; [reflexivity | apply literal_reads_back; auto].
  - destruct b.
    + exists "true". split; [reflexivity | apply literal_reads_back; auto].
    + exists "false". split; [reflexivity | apply literal_reads_back; auto].
  - cbn [is_data] in Hdata. cbn [well_formed] in Hwf.
    exists (Number_toString n). cbn [SerializeJSONProperty]. rewrite Hdata.
    split; [reflexivity |].
    apply number_reads_back; [exact Hdata | exact Hwf |].
    intros ->. discriminate Hnz.
  - exists (QuoteJSONString s).
    split; [reflexivity | apply string_reads_back].
  - cbn in Hwf, Hord, Hdata, Hnz.
    destruct (elements_read_back l H Hwf Hord Hdata Hnz)
      as (parts & Hser & Hnil & Hcons).
    exists ("[" ++ join "," parts ++ "]")%string.
    cbn [SerializeJSONProperty]. rewrite Hser.
    split; [reflexivity |]. split; [reflexivity |].
    intros fuel rest Hfuel _.
    cbn [String.length append] in Hfuel. rewrite length_append in Hfuel.
    destruct fuel as [| fuel]; [lia |].
    cbn [append]. rewrite append_assoc. cbn [append].
    rewrite parse_value_eq by reflexivity. cbn [Ascii.eqb Bool.eqb].
    destruct l as [| x l].
    + rewrite (Hnil eq_refl). reflexivity.
    + destruct Hcons as [Hopen Hread]; [discriminate |].
      rewrite skip_ws_opens by exact Hopen.
      destruct (expect_closing (join "," parts) (String "]" rest) Hopen) as [-> _].
      rewrite Hread by lia. reflexivity.
  - cbn in Hwf, Hord, Hdata, Hnz.
    apply andb_true_iff in Hwf as [Hkeys Hwf].
    apply andb_true_iff in Hord as [Horder Hord].
    destruct (members_read_back l H Hwf Hord Hdata Hnz)
      as (parts & Hser & Hnil & Hcons).
    exists ("{" ++ join "," parts ++ "}")%string.
    cbn [SerializeJSONProperty]. rewrite Hser.
    split; [reflexivity |]. split; [reflexivity |].
    intros fuel rest Hfuel _.
    cbn [String.length append] in Hfuel. rewrite length_append in Hfuel.
    destruct fuel as [| fuel]; [lia |].
    cbn [append]. rewrite append_assoc. cbn [append].
    rewrite parse_value_eq by reflexivity. cbn [Ascii.eqb Bool.eqb].
    destruct l as [| x l].
    + rewrite (Hnil eq_refl). reflexivity.
    + destruct Hcons as [Hopen Hread]; [discriminate |].
      rewrite skip_ws_opens by exact Hopen.
      destruct (expect_closing (join "," parts) (String "}" rest) Hopen)
        as (_ & -> & _).
      rewrite Hread by lia.
      now rewrite obj_of_members_ordered.
Qed.

Lemma JSON_parse_reads_back (v : jsval) (t : string) :
  reads_back v t -> JSON_parse t = Some v.
Proof.
  intros [_ Hread]. unfold JSON_parse.
  rewrite <- (append_nil_r t) at 2.
  rewrite Hread by (reflexivity || lia). reflexivity.
Qed.

Lemma output_fragment_text (v : jsval) (t : string) :
  SerializeJSONProperty v = Normal (Some t) ->
  output_fragment v
  = Normal ("module.exports = JSON.parse(" ++ QuoteJSONString t ++ ")").
Proof.
  intros H. unfold output_fragment, JSON_stringify. rewrite H. reflexivity.
Qed.

Lemma decode_quoted (t : string) :
  decode_fragment ("module.exports = JSON.parse(" ++ QuoteJSONString t ++ ")")
  = JSON_parse t.
Proof.
  unfold decode_fragment. rewrite strip_prefix_append.
  unfold QuoteJSONString. cbn [append]. rewrite Ascii.eqb_refl.
  rewrite append_assoc. cbn [append].
  rewrite read_quote_body. reflexivity.
Qed.

(** ** The validator accepts data *)

Lemma items_accepted (l : list jsval) (i : nat) :
  Forall (fun x => is_data x = true -> find_offence x = None) l ->
  forallb is_data l = true ->
  first_in_items find_offence i l = None.
Proof.
  intros H. revert i. induction H as [| x l Hx _ IH]; intros i Hd; cbn.
  - reflexivity.
  - cbn in Hd. apply andb_true_iff in Hd as [Hdx Hdl].
    rewrite (Hx Hdx). exact (IH (S i) Hdl).
Qed.

Lemma props_accepted (l : list (string * jsval)) :
  Forall (fun kv => is_data (snd kv) = true -> find_offence (snd kv) = None) l ->
  forallb (fun kv => is_data (snd kv)) l = true ->
  first_in_props find_offence l = None.
Proof.
  induction 1 as [| [k x] l Hx _ IH]; intros Hd; cbn.
  - reflexivity.
  - cbn in Hd, Hx. apply andb_true_iff in Hd as [Hdx Hdl].
    rewrite (Hx Hdx). exact (IH Hdl).
Qed.

Lemma data_accepted (v : jsval) :
  is_data v = true -> find_offence v = None.
Proof.
  induction v using jsval_rect'; intros Hd; try discriminate Hd;
    try reflexivity.
  - cbn in *. now rewrite Hd.
  - cbn in *. now apply items_accepted.
  - cbn in *. now apply props_accepted.
Qed.

Lemma data_serializable (h : host) (resource : string) (v : jsval) :
  is_data v = true -> isSerializable h resource v = Normal tt.
Proof.
  intros H. unfold isSerializable. now rewrite (data_accepted v H).
Qed.

(** ** The output fragment *)

(** A data value has a JSON text, whatever its numbers and keys. *)
Lemma data_has_text (v : jsval) :
  is_data v = true -> exists t, SerializeJSONProperty v = Normal (Some t).
Proof.
  induction v using jsval_rect'; intros Hdata; try discriminate Hdata;
    cbn [SerializeJSONProperty].
  - eexists; reflexivity.
  - destruct b; eexists; reflexivity.
  - eexists; reflexivity.
  - eexists; reflexivity.
  - cbn [is_data] in Hdata.
    assert (Hparts : exists parts,
               serialize_elements SerializeJSONProperty l = Normal parts).
    { induction H as [| x l Hx _ IH]; [now exists [] |].
      cbn in Hdata. apply andb_true_iff in Hdata as [Hdx Hdl].
      destruct (Hx Hdx) as (t & Ht). destruct (IH Hdl) as (parts & Hparts).
      exists (t :: parts). cbn [serialize_elements]. now rewrite Ht, Hparts. }
    destruct Hparts as (parts & ->). eexists; reflexivity.
  - cbn [is_data] in Hdata.
    assert (Hparts : exists parts,
               serialize_members SerializeJSONProperty l = Normal parts).
    { induction H as [| [k x] l Hx _ IH]; [now exists [] |].
      cbn in Hdata, Hx. apply andb_true_iff in Hdata as [Hdx Hdl].
      destruct (Hx Hdx) as (t & Ht). destruct (IH Hdl) as (parts & Hparts).
      eexists. cbn [serialize_members]. now rewrite Ht, Hparts. }
    destruct Hparts as (parts & ->). eexists; reflexivity.
Qed.

(** C2, as the spec has it, fails on the negative zero, which is a finite
    number: [JSON.stringify] writes it [0], and [0] reads back as the
    positive zero.  A module that exports a record holding a negative
    zero gets a fragment that decodes to another record. *)
Lemma negative_zero_is_not_preserved :
  let v := VRecord [("delta", VNum NegativeZero)] in
  well_formed v = true
  /\ own_key_order v = true
  /\ is_data v = true
  /\ (exists fragment,
        fst (_prevalLoader (host_exporting v) EmptyString
               "/app/data.preval.ts" default_options fresh_world)
        = Normal fragment
        /\ output_fragment v = Normal fragment
        /\ decode_fragment fragment
           = Some (VRecord [("delta", VNum (Int 0))]))
  /\ VRecord [("delta", VNum (Int 0))] <> v.
Proof.
  repeat (split; [reflexivity |]).
  split; [| discriminate].
  eexists. repeat split; reflexivity.
Qed.

(** C2, amended.  For a value built only from plain records, ordered
    sequences, strings, finite numbers other than the negative zero,
    booleans and null, the fragment that the loader emits decodes (the
    literal is read, then parsed as JSON) to that very value; equality of
    embedded values is deep equality.  The term is taken as the language
    has the value: keys distinct and in the order an object lists them,
    numbers that are doubles. *)
Theorem fragment_round_trip (v : jsval) :
  well_formed v = true ->
  own_key_order v = true ->
  is_data v = true ->
  negative_zero_free v = true ->
  exists fragment,
    output_fragment v = Normal fragment
    /\ decode_fragment fragment = Some v
    /\ forall h content resource options w,
        resolves_to h resource options v ->
        fst (_prevalLoader h content resource options w) = Normal fragment.
Proof.
  intros Hwf Hord Hdata Hnz.
  destruct (data_reads_back v Hwf Hord Hdata Hnz) as (t & Hser & Hread).
  exists ("module.exports = JSON.parse(" ++ QuoteJSONString t ++ ")")%string.
  split; [now apply output_fragment_text |].
  split; [rewrite decode_quoted; now apply JSON_parse_reads_back |].
  intros h content resource options w Hres.
  rewrite (run_resolved h content resource options w v Hres).
  cbn [fst]. rewrite (data_serializable h resource v Hdata).
  now apply output_fragment_text.
Qed.

Lemma fragment_round_trip_witness :
  well_formed sample_data = true
  /\ own_key_order sample_data = true
  /\ is_data sample_data = true
  /\ negative_zero_free sample_data = true
  /\ exists fragment,
      output_fragment sample_data = Normal fragment
      /\ decode_fragment fragment = Some sample_data
      /\ forall h content resource options w,
          resolves_to h resource options sample_data ->
          fst (_prevalLoader h content resource options w) = Normal fragment.
Proof.
  repeat (split; [reflexivity |]).
  apply (fragment_round_trip sample_data); reflexivity.
Defined.

Example sample_fragment :
  output_fragment (VRecord [("a", VStr "x")])
  = Normal ("module.exports = JSON.parse("
            ++ QuoteJSONString
                 ("{" ++ QuoteJSONString "a" ++ ":" ++ QuoteJSONString "x" ++ "}")
            ++ ")").
Proof. reflexivity. Qed.

Example sample_quote :
  QuoteJSONString (String dquote (String "010" "a"))
  = String dquote
      (String backslash (String dquote (String backslash ("na" ++ String dquote EmptyString)))).
Proof. reflexivity. Qed.

(** ** The validator rejects what is not data *)

Lemma first_in_items_found (l : list jsval) (i : nat) (p : list segment)
  (why : string) :
  first_in_items find_offence i l = Some (p, why) ->
  exists j x p',
    p = Index (i + j) :: p'
    /\ nth_error l j = Some x
    /\ find_offence x = Some (p', why).
Proof.
  revert i. induction l as [| x l IH]; intros i H; cbn in H; [discriminate |].
  destruct (find_offence x) as [[p' why'] |] eqn:E.
  - injection H as <- <-. exists 0, x, p'.
    rewrite Nat.add_0_r. auto.
  - destruct (IH (S i) H) as (j & y & p' & -> & Hnth & Hy).
    exists (S j), y, p'. rewrite Nat.add_succ_r. auto.
Qed.

Lemma first_in_props_found (l : list (string * jsval)) (p : list segment)
  (why : string) :
  distinct (map fst l) = true ->
  first_in_props find_offence l = Some (p, why) ->
  exists k x p',
    p = Key k :: p'
    /\ In (k, x) l
    /\ lookup k l = Some x
    /\ find_offence x = Some (p', why).
Proof.
  induction l as [| [k0 x0] l IH]; intros Hd H; cbn in H; [discriminate |].
  cbn in Hd. apply andb_true_iff in Hd as [Hfresh Hd].
  destruct (find_offence x0) as [[p' why'] |] eqn:E.
  - injection H as <- <-. exists k0, x0, p'. cbn.
    rewrite String.eqb_refl. auto.
  - destruct (IH Hd H) as (k & x & p' & -> & Hin & Hlook & Hx).
    exists k, x, p'. cbn. repeat split; auto.
    destruct (String.eqb_spec k k0) as [-> | _]; [| exact Hlook].
    apply negb_true_iff in Hfresh.
    assert (Hex : existsb (String.eqb k0) (map fst l) = true).
    { apply existsb_exists. exists k0. split; [| apply String.eqb_refl].
      change k0 with (fst (k0, x)). now apply in_map. }
    congruence.
Qed.

Lemma offence_path_sound (v : jsval) : path_is_sound v.
Proof.
  induction v using jsval_rect'; unfold path_is_sound; intros Hwf p why Hf;
    try discriminate Hf;
    try (cbn in Hf; injection Hf as <- <-; eexists; cbn; eauto; fail).
  - cbn in Hf. destruct (is_finite n) eqn:E; [discriminate |].
    injection Hf as <- <-. exists (VNum n). cbn. rewrite E. auto.
  - cbn in Hf, Hwf.
    destruct (first_in_items_found l 0 p why Hf) as (j & x & p' & -> & Hnth & Hx).
    pose proof (nth_error_In _ _ Hnth) as Hin.
    rewrite Forall_forall in H. rewrite forallb_forall in Hwf.
    destruct (H x Hin (Hwf x Hin) p' why Hx) as (u & Hu).
    exists u. cbn. now rewrite Hnth.
  - cbn in Hf, Hwf. apply andb_true_iff in Hwf as [Hkeys Hwf].
    destruct (first_in_props_found l p why Hkeys Hf)
      as (k & x & p' & -> & Hin & Hlook & Hx).
    rewrite Forall_forall in H. rewrite forallb_forall in Hwf.
    destruct (H (k, x) Hin (Hwf (k, x) Hin) p' why Hx) as (u & Hu).
    exists u. cbn. now rewrite Hlook.
Qed.

Lemma non_data_is_found (v : jsval) :
  contains_non_data v = true -> exists pw, find_offence v = Some pw.
Proof.
  induction v using jsval_rect'; intros Hc; try discriminate Hc;
    try (cbn; eauto; fail).
  - cbn in *. apply negb_true_iff in Hc. rewrite Hc. eauto.
  - cbn in *. generalize 0 as i.
    induction H as [| x l Hx _ IH]; intros i; [discriminate |].
    cbn in *. destruct (find_offence x) as [[p why] |] eqn:E; [eauto |].
    apply orb_true_iff in Hc as [Hc | Hc].
    + destruct (Hx Hc) as [pw Hpw]. discriminate.
    + exact (IH Hc (S i)).
  - cbn in *.
    induction H as [| [k x] l Hx _ IH]; [discriminate |].
    cbn in *. destruct (find_offence x) as [[p why] |] eqn:E; [eauto |].
    apply orb_true_iff in Hc as [Hc | Hc].
    + destruct (Hx Hc) as [pw Hpw]. discriminate.
    + exact (IH Hc).
Qed.

(** C3.  A resolved value that holds a callable, a circular reference or
    any other construct that is not data makes the validator fail with a
    SerializationFailure whose message names a path; that path leads to
    an offending construct of the value; and the loader raises this error
    where it would have returned a fragment. *)
Theorem non_data_is_rejected (h : host) (resource : string) (v : jsval) :
  well_formed v = true ->
  contains_non_data v = true ->
  exists p u,
    isSerializable h resource v
    = Throw (new_error h SerializationFailure
               (serialization_message resource p (shape u)))
    /\ follow p v = Some u
    /\ non_data_node u = true
    /\ contains (render_path p)
         (serialization_message resource p (shape u)) = true
    /\ forall content options w,
        resolves_to h resource options v ->
        fst (_prevalLoader h content resource options w)
        = Throw (new_error h SerializationFailure
                   (serialization_message resource p (shape u))).
Proof.
  intros Hwf Hc.
  destruct (non_data_is_found v Hc) as [[p why] Hf].
  destruct (offence_path_sound v Hwf p why Hf) as (u & Hfollow & Hnode & ->).
  assert (Hval : isSerializable h resource v
                 = Throw (new_error h SerializationFailure
                            (serialization_message resource p (shape u)))).
  { unfold isSerializable. now rewrite Hf. }
  exists p, u. repeat split; auto.
  - unfold serialization_message. apply contains_append.
  - intros content options w Hres.
    rewrite (run_resolved h content resource options w v Hres).
    cbn [fst]. now rewrite Hval.
Qed.

Lemma non_data_is_rejected_witness :
  let v := VRecord [("fn", VFunction "() => 1")] in
  well_formed v = true
  /\ contains_non_data v = true
  /\ exists p u,
      isSerializable (host_exporting v) "/app/data.preval.ts" v
      = Throw (new_error (host_exporting v) SerializationFailure
                 (serialization_message "/app/data.preval.ts" p (shape u)))
      /\ follow p v = Some u
      /\ non_data_node u = true
      /\ contains (render_path p)
           (serialization_message "/app/data.preval.ts" p (shape u)) = true
      /\ forall content options w,
          resolves_to (host_exporting v) "/app/data.preval.ts" options v ->
          fst (_prevalLoader (host_exporting v) content
                 "/app/data.preval.ts" options w)
          = Throw (new_error (host_exporting v) SerializationFailure
                     (serialization_message "/app/data.preval.ts" p (shape u))).
Proof.
  cbv zeta. split; [reflexivity |]. split; [reflexivity |].
  apply non_data_is_rejected; reflexivity.
Defined.

Example function_member_path :
  find_offence (VRecord [("a", VNull); ("fn", VFunction "() => 1")])
  = Some ([Key "fn"], "function").
Proof. reflexivity. Qed.

Example cycle_path :
  find_offence (VRecord [("a", VArray [VNull; VRecord [("self", VCycle 2)]])])
  = Some ([Key "a"; Index 1; Key "self"], "circular reference").
Proof. reflexivity. Qed.

(** ** Alias resolution *)

(** C4, as the spec has it, fails: under an alias configuration that
    maps [@lib/*] to a target that does not exist, the matcher finds
    nothing for [./x] (no pattern matches) and nothing for [@lib/x] (no
    candidate exists); [resolvePath] returns that [undefined] both times,
    where the default strategy returns [./x] and [null]. *)
Lemma resolvePath_miss_is_not_default :
  matchPath host_aliased = Some no_match
  /\ alias_resolution_fails
       (no_match "./x" (readJson host_aliased) (fileExists host_aliased)
          defaultExtensions)
  /\ resolvePath host_aliased defaultExtensions (matchPath host_aliased)
       "./x" "/app/page.ts" VUndefined
     = Normal VUndefined
  /\ defaultResolvePath host_aliased "./x" "/app/page.ts" VUndefined
     = Normal (VStr "./x")
  /\ resolvePath host_aliased defaultExtensions (matchPath host_aliased)
       "@lib/x" "/app/page.ts" VUndefined
     = Normal VUndefined
  /\ defaultResolvePath host_aliased "@lib/x" "/app/page.ts" VUndefined
     = Normal VNull
  /\ ~ (forall sourcePath,
          alias_resolution_fails
            (no_match sourcePath (readJson host_aliased)
               (fileExists host_aliased) defaultExtensions) ->
          resolvePath host_aliased defaultExtensions (matchPath host_aliased)
            sourcePath "/app/page.ts" VUndefined
          = defaultResolvePath host_aliased sourcePath "/app/page.ts"
              VUndefined).
Proof.
  repeat (split; [reflexivity || now left |]).
  intros H. specialize (H "./x" (or_introl eq_refl)). discriminate H.
Qed.

(** C4, amended.  When alias-based resolution fails because the matcher
    raises an error, [resolvePath] returns what the default strategy
    returns and the error goes no further; when it fails because the
    matcher finds nothing, [resolvePath] returns that [undefined]. *)
Theorem resolvePath_on_alias_failure
  (h : host) (exts : list string) (mp : MatchPath)
  (sourcePath currentFile : string) (opts : jsval) :
  alias_resolution_fails (mp sourcePath (readJson h) (fileExists h) exts) ->
  resolvePath h exts (Some mp) sourcePath currentFile opts
  = match mp sourcePath (readJson h) (fileExists h) exts with
    | Throw _ => defaultResolvePath h sourcePath currentFile opts
    | Normal _ => Normal VUndefined
    end.
Proof.
  unfold resolvePath. intros [H | [e H]]; rewrite H; reflexivity.
Qed.

Lemma resolvePath_on_alias_failure_witness :
  let broken : MatchPath := fun _ _ _ _ => Throw (TypeError "bad pattern") in
  alias_resolution_fails
    (broken "./x" (readJson host_aliased) (fileExists host_aliased)
       defaultExtensions)
  /\ resolvePath host_aliased defaultExtensions (Some broken)
       "./x" "/app/page.ts" VUndefined
     = Normal (VStr "./x").
Proof.
  cbv zeta. split; [right; eexists; reflexivity |].
  rewrite resolvePath_on_alias_failure; [reflexivity |].
  right; eexists; reflexivity.
Defined.

(** ** Failures of the target module *)

Lemma missing_default_error_mentions (h : host) (resource : string) :
  is_PrevalError (missing_default_error h resource) = true
  /\ contains missing_default_message
       (message_of (missing_default_error h resource)) = true.
Proof.
  split; [reflexivity |].
  unfold missing_default_error, new_error, message_of, failure_message.
  find_needle.
Qed.

(** C5.  A target module that loads and has no default export makes the
    loader fail with a [PrevalError] whose message mentions the missing
    default export. *)
Theorem missing_default_export_fails
  (h : host) (content resource : string) (options : PrevalLoaderOptions)
  (w : world) (mod_ : jsval) :
  loads h resource options mod_ ->
  get mod_ "default" = Normal VUndefined ->
  exists e,
    fst (_prevalLoader h content resource options w) = Throw e
    /\ is_PrevalError e = true
    /\ contains missing_default_message (message_of e) = true.
Proof.
  intros Hload Hget. exists (missing_default_error h resource).
  rewrite (run_falsy h content resource options w mod_ VUndefined Hload Hget eq_refl).
  split; [reflexivity | apply missing_default_error_mentions].
Qed.

Lemma missing_default_export_fails_witness :
  let h := host_loading no_config no_match (Normal (VRecord [("other", VNull)])) in
  loads h "/app/data.preval.ts" default_options (VRecord [("other", VNull)])
  /\ get (VRecord [("other", VNull)]) "default" = Normal VUndefined
  /\ exists e,
      fst (_prevalLoader h "" "/app/data.preval.ts" default_options fresh_world)
      = Throw e
      /\ is_PrevalError e = true
      /\ contains missing_default_message (message_of e) = true.
Proof.
  cbv zeta. split; [run_host |]. split; [reflexivity |].
  apply (missing_default_export_fails _ _ _ _ _ (VRecord [("other", VNull)]));
    run_host.
Defined.

(** C6, as the spec has it, fails: a computation that rejects with a
    value that is no object (here the string "boom") is reported with no
    line on the error stream. *)
Lemma rejection_without_trace_is_not_logged :
  fails_with host_rejecting "/app/data.preval.ts" default_options (VStr "boom")
  /\ fst (_prevalLoader host_rejecting "" "/app/data.preval.ts"
            default_options fresh_world)
     = Throw (new_error host_rejecting PrevalError
                (failure_message "/app/data.preval.ts" "boom"))
  /\ stderr (snd (_prevalLoader host_rejecting "" "/app/data.preval.ts"
                    default_options fresh_world)) = []
  /\ ~ diagnostic_written fresh_world
         (snd (_prevalLoader host_rejecting "" "/app/data.preval.ts"
                 default_options fresh_world)).
Proof.
  split.
  - right. exists (VRecord [("default", VPromise false (VStr "boom"))]).
    split; [run_host |]. right. eexists. repeat split; reflexivity.
  - split; [reflexivity |]. split; [reflexivity |].
    intros [trace H]. discriminate H.
Qed.

(** C6, amended.  When compiling or running the target module throws, or
    the computation it exports rejects, with a failure that converts to
    a string, the loader fails with a [PrevalError] whose message embeds
    the resource path and that string; before raising it, the loader
    writes one line with the tag [[next-plugin-preval]] and the failure's
    stack to the error stream if the failure is an object other than an
    array that has a [stack], and writes nothing otherwise. *)
Theorem execution_failure_is_wrapped
  (h : host) (content resource : string) (options : PrevalLoaderOptions)
  (w : world) (e : jsval) (description : string) :
  fails_with h resource options e ->
  ToString e = Normal description ->
  let run := _prevalLoader h content resource options w in
  fst run = Throw (new_error h PrevalError
                     (failure_message resource description))
  /\ contains resource (failure_message resource description) = true
  /\ contains description (failure_message resource description) = true
  /\ stderr (snd run)
     = (stderr w
        ++ if isRecord e && has_property "stack" e
           then match get e "stack" with
                | Normal trace => [[VStr diagnostic_tag; trace]]
                | Throw _ => []
                end
           else [])%list.
Proof.
  intros Hfail Hstr. cbv zeta.
  rewrite (run_failed h content resource options w e description Hfail Hstr).
  split; [reflexivity |].
  split; [| split; [| reflexivity]]; unfold failure_message; find_needle.
Qed.

Example symbol_rejection_is_not_wrapped :
  fst (_prevalLoader host_rejecting_symbol "" "/app/data.preval.ts"
         default_options fresh_world)
  = Throw (TypeError "Cannot convert a Symbol value to a string")
  /\ registration
       (snd (_prevalLoader host_rejecting_symbol "" "/app/data.preval.ts"
               default_options fresh_world)) = None.
Proof. split; reflexivity. Qed.

Example null_exports_fail_as_execution :
  fst (_prevalLoader (host_loading no_config no_match (Normal VNull)) ""
         "/app/data.preval.ts" default_options fresh_world)
  = Throw (new_error (host_loading no_config no_match (Normal VNull))
             PrevalError
             (failure_message "/app/data.preval.ts"
                "TypeError: Cannot read properties of null (reading 'default')")).
Proof. reflexivity. Qed.

Lemma execution_failure_is_wrapped_witness :
  let e := VError (NativeError "TypeError") "fetch failed"
             (Some "TypeError: fetch failed at getData") in
  let h := host_exporting (VPromise false e) in
  let run := _prevalLoader h "" "/app/data.preval.ts" default_options
               fresh_world in
  fails_with h "/app/data.preval.ts" default_options e
  /\ ToString e = Normal "TypeError: fetch failed"
  /\ fst run
     = Throw (new_error h PrevalError
                (failure_message "/app/data.preval.ts"
                   "TypeError: fetch failed"))
  /\ stderr (snd run)
     = [[VStr diagnostic_tag; VStr "TypeError: fetch failed at getData"]].
Proof.
  cbv zeta.
  assert (Hfail : fails_with
                    (host_exporting
                       (VPromise false
                          (VError (NativeError "TypeError") "fetch failed"
                             (Some "TypeError: fetch failed at getData"))))
                    "/app/data.preval.ts" default_options
                    (VError (NativeError "TypeError") "fetch failed"
                       (Some "TypeError: fetch failed at getData"))).
  { right. eexists. split; [run_host |]. right. eexists.
    repeat split; reflexivity. }
  split; [exact Hfail |]. split; [reflexivity |].
  destruct (execution_failure_is_wrapped _ "" "/app/data.preval.ts"
              default_options fresh_world _ "TypeError: fetch failed"
              Hfail eq_refl) as (H1 & _ & _ & H4).
  split; [exact H1 | exact H4].
Defined.

(** C9.  A target module whose default export is there but falsy (0,
    false, the empty string, null, NaN) is rejected with the very error
    of a missing default export. *)
Theorem falsy_default_export_is_rejected
  (h : host) (content resource : string) (options : PrevalLoaderOptions)
  (w : world) (props : list (string * jsval)) (default_ : jsval) :
  loads h resource options (VRecord props) ->
  lookup "default" props = Some default_ ->
  In default_ falsy_exports ->
  fst (_prevalLoader h content resource options w)
  = Throw (missing_default_error h resource)
  /\ is_PrevalError (missing_default_error h resource) = true
  /\ contains missing_default_message
       (message_of (missing_default_error h resource)) = true.
Proof.
  intros Hload Hlook Hin.
  assert (Hget : get (VRecord props) "default" = Normal default_)
    by (cbn; now rewrite Hlook).
  assert (Hfalsy : truthy default_ = false).
  { cbn in Hin. decompose [or] Hin; subst; try reflexivity. contradiction. }
  rewrite (run_falsy h content resource options w _ _ Hload Hget Hfalsy).
  split; [reflexivity | apply missing_default_error_mentions].
Qed.

Lemma falsy_default_export_is_rejected_witness :
  let h := host_exporting (VNum (Int 0)) in
  loads h "/app/data.preval.ts" default_options
    (VRecord [("default", VNum (Int 0))])
  /\ lookup "default" [("default", VNum (Int 0))] = Some (VNum (Int 0))
  /\ In (VNum (Int 0)) falsy_exports
  /\ fst (_prevalLoader h "" "/app/data.preval.ts" default_options fresh_world)
     = Throw (missing_default_error h "/app/data.preval.ts").
Proof.
  cbv zeta. split; [run_host |]. split; [reflexivity |].
  split; [now left |].
  apply (falsy_default_export_is_rejected _ "" "/app/data.preval.ts"
           default_options fresh_world
           [("default", VNum (Int 0))] (VNum (Int 0)));
    [run_host | reflexivity | now left].
Defined.

(** ** Values that are accepted *)

Lemma accepted_items (l : list jsval) (i : nat) :
  Forall (fun x => find_offence x = None -> is_data x = true) l ->
  first_in_items find_offence i l = None ->
  forallb is_data l = true.
Proof.
  intros H. revert i. induction H as [| x l Hx _ IH]; intros i Hf; cbn in *.
  - reflexivity.
  - destruct (find_offence x) as [[p why] |]; [discriminate |].
    rewrite (Hx eq_refl). exact (IH (S i) Hf).
Qed.

Lemma accepted_props (l : list (string * jsval)) :
  Forall (fun kv => find_offence (snd kv) = None -> is_data (snd kv) = true) l ->
  first_in_props find_offence l = None ->
  forallb (fun kv => is_data (snd kv)) l = true.
Proof.
  induction 1 as [| [k x] l Hx _ IH]; intros Hf; cbn in *.
  - reflexivity.
  - destruct (find_offence x) as [[p why] |]; [discriminate |].
    rewrite (Hx eq_refl). exact (IH Hf).
Qed.

Lemma accepted_is_data (v : jsval) :
  find_offence v = None -> is_data v = true.
Proof.
  induction v using jsval_rect'; intros Hf; try discriminate Hf;
    try reflexivity.
  - cbn in *. destruct (is_finite n); [reflexivity | discriminate].
  - cbn in *. now apply (accepted_items l 0).
  - cbn in *. now apply accepted_props.
Qed.

Lemma serializable_is_data (h : host) (resource : string) (v : jsval) :
  isSerializable h resource v = Normal tt -> is_data v = true.
Proof.
  unfold isSerializable. intros H. apply accepted_is_data.
  destruct (find_offence v) as [[p why] |]; [discriminate | reflexivity].
Qed.

(** C10.  A default export that is a truthy serializable value and no
    thenable is accepted: awaiting it yields the value itself, and the
    loader returns the fragment that encodes it, the same as for a
    module that exports a promise fulfilled with that value. *)
Theorem plain_default_export_is_accepted
  (h h' : host) (content resource : string) (options : PrevalLoaderOptions)
  (w : world) (mod_ mod' v : jsval) :
  well_formed v = true ->
  truthy v = true ->
  is_thenable v = false ->
  isSerializable h resource v = Normal tt ->
  loads h resource options mod_ ->
  get mod_ "default" = Normal v ->
  loads h' resource options mod' ->
  get mod' "default" = Normal (VPromise true v) ->
  await v = Normal v
  /\ exists fragment,
      fst (_prevalLoader h content resource options w) = Normal fragment
      /\ fst (_prevalLoader h' content resource options w) = Normal fragment
      /\ output_fragment v = Normal fragment
      /\ (own_key_order v = true -> negative_zero_free v = true ->
          decode_fragment fragment = Some v).
Proof.
  intros Hwf Htruthy Hthen Hser Hload Hget Hload' Hget'.
  assert (Hawait : await v = Normal v) by (destruct v; try reflexivity; discriminate).
  split; [exact Hawait |].
  pose proof (serializable_is_data h resource v Hser) as Hdata.
  destruct (data_has_text v Hdata) as (t & Htext).
  exists ("module.exports = JSON.parse(" ++ QuoteJSONString t ++ ")")%string.
  assert (Hres : resolves_to h resource options v)
    by (exists mod_, v; auto).
  assert (Hres' : resolves_to h' resource options v)
    by (exists mod', (VPromise true v); auto).
  rewrite (run_resolved h content resource options w v Hres).
  rewrite (run_resolved h' content resource options w v Hres').
  cbn [fst]. rewrite Hser, (data_serializable h' resource v Hdata).
  rewrite (output_fragment_text v t Htext).
  repeat split.
  intros Hord Hnz.
  destruct (data_reads_back v Hwf Hord Hdata Hnz) as (t' & Htext' & Hread).
  assert (t' = t) as -> by congruence.
  rewrite decode_quoted. now apply JSON_parse_reads_back.
Qed.

Lemma plain_default_export_is_accepted_witness :
  let h := host_exporting sample_data in
  let h' := host_exporting (VPromise true sample_data) in
  well_formed sample_data = true
  /\ truthy sample_data = true
  /\ is_thenable sample_data = false
  /\ isSerializable h "/app/data.preval.ts" sample_data = Normal tt
  /\ exists fragment,
      fst (_prevalLoader h "" "/app/data.preval.ts" default_options fresh_world)
      = Normal fragment
      /\ fst (_prevalLoader h' "" "/app/data.preval.ts" default_options
                fresh_world)
         = Normal fragment
      /\ output_fragment sample_data = Normal fragment
      /\ decode_fragment fragment = Some sample_data.
Proof.
  cbv zeta. repeat (split; [reflexivity |]).
  destruct (plain_default_export_is_accepted
              (host_exporting sample_data)
              (host_exporting (VPromise true sample_data))
              "" "/app/data.preval.ts" default_options fresh_world
              (VRecord [("default", sample_data)])
              (VRecord [("default", VPromise true sample_data)])
              sample_data eq_refl eq_refl eq_refl eq_refl)
    as (_ & fragment & Hrun & Hrun' & Hout & Hdecode);
    try run_host.
  exists fragment. repeat split; try assumption.
  apply Hdecode; reflexivity.
Defined.

(** ** A missing alias configuration *)

(** C7, as the spec has it, fails.  A configuration file that does not
    parse makes [loadConfig] throw, and paths that are not lists of
    targets make [createMatchPath] throw: either error leaves
    [_prevalLoader] as it is, no [PrevalError], before any transform is
    registered.  A configuration that loads and holds no alias registers
    the plugin all the same, and its [resolvePath] answers [undefined]
    where the default strategy answers with the specifier. *)
Lemma configuration_failure_is_surfaced :
  _prevalLoader host_malformed EmptyString "/app/data.preval.ts"
    default_options fresh_world
  = (Throw malformed_config_error, fresh_world)
  /\ is_PrevalError malformed_config_error = false
  /\ _prevalLoader host_bad_paths EmptyString "/app/data.preval.ts"
       default_options fresh_world
     = (Throw bad_paths_error, fresh_world)
  /\ map fst (plugins (transform_options host_no_alias defaultExtensions))
     = ["module-resolver"]
  /\ resolvePath host_no_alias defaultExtensions (matchPath host_no_alias)
       "./x" "/app/page.ts" VUndefined
     = Normal VUndefined
  /\ defaultResolvePath host_no_alias "./x" "/app/page.ts" VUndefined
     = Normal (VStr "./x").
Proof. repeat split; reflexivity. Qed.

(** C7, amended.  When [loadConfig] returns a result of type "failed"
    (it found no configuration file, or none with a base URL), the two
    calls of lines 47 to 57 raise nothing, no alias plugin is among the
    plugins that are registered, [resolvePath] resolves every specifier
    as the default strategy resolves it, and a module whose default
    export settles to data still yields its fragment. *)
Theorem config_miss_is_silent
  (h : host) (content resource : string) (options : PrevalLoaderOptions)
  (w : world) (configLoaderResult : ConfigLoaderResult) :
  loadConfig h = Normal configLoaderResult ->
  resultType configLoaderResult = "failed" ->
  load_aliases h = Normal tt
  /\ plugins (transform_options h (extensions_or_default options)) = []
  /\ (forall sourcePath currentFile opts,
        resolvePath h (extensions_or_default options) (matchPath h)
          sourcePath currentFile opts
        = defaultResolvePath h sourcePath currentFile opts)
  /\ (forall v,
        is_data v = true ->
        resolves_to h resource options v ->
        exists fragment,
          fst (_prevalLoader h content resource options w) = Normal fragment
          /\ output_fragment v = Normal fragment).
Proof.
  intros Hloaded Hfailed.
  assert (Hnone : configLoaderSuccessResult h = None)
    by (unfold configLoaderSuccessResult; now rewrite Hloaded, Hfailed).
  split; [| split; [| split]].
  - unfold load_aliases. rewrite Hloaded.
    destruct configLoaderResult; [reflexivity | discriminate Hfailed].
  - unfold transform_options, moduleResolver. now rewrite Hnone.
  - intros. unfold matchPath. rewrite Hnone. reflexivity.
  - intros v Hdata Hres.
    destruct (data_has_text v Hdata) as (t & Htext).
    exists ("module.exports = JSON.parse(" ++ QuoteJSONString t ++ ")")%string.
    rewrite (run_resolved h content resource options w v Hres).
    cbn [fst]. rewrite (data_serializable h resource v Hdata).
    split; now apply output_fragment_text.
Qed.

Lemma config_miss_is_silent_witness :
  let h := host_exporting (VPromise true sample_data) in
  loadConfig h = Normal no_config
  /\ resultType no_config = "failed"
  /\ plugins (transform_options h (extensions_or_default default_options)) = []
  /\ exists fragment,
      fst (_prevalLoader h "" "/app/data.preval.ts" default_options fresh_world)
      = Normal fragment
      /\ output_fragment sample_data = Normal fragment.
Proof.
  cbv zeta. split; [reflexivity |]. split; [reflexivity |].
  destruct (config_miss_is_silent
              (host_exporting (VPromise true sample_data))
              "" "/app/data.preval.ts" default_options fresh_world
              no_config eq_refl eq_refl)
    as (_ & Hplugins & _ & Hrun).
  split; [exact Hplugins |].
  apply Hrun; [reflexivity |].
  exists (VRecord [("default", VPromise true sample_data)]),
    (VPromise true sample_data).
  repeat split.
Defined.

Example config_found_registers_plugin :
  map fst (plugins (transform_options host_aliased defaultExtensions))
  = ["module-resolver"].
Proof. reflexivity. Qed.

(** ** Determinism *)

(** C8.  Two runs on the same resource and options, in which the default
    export settles to the same value, return the same fragment: one run
    returns a fragment exactly when the other returns it, whatever else
    differs between the two (the state of the process, the content
    handed over, the rest of the host); and for a data value both return
    the encoding of the value, which depends on nothing else. *)
Theorem same_value_same_fragment
  (h1 h2 : host) (content1 content2 resource : string)
  (options : PrevalLoaderOptions) (w1 w2 : world) (v : jsval) :
  resolves_to h1 resource options v ->
  resolves_to h2 resource options v ->
  (forall fragment,
      fst (_prevalLoader h1 content1 resource options w1) = Normal fragment
      <-> fst (_prevalLoader h2 content2 resource options w2) = Normal fragment)
  /\ (is_data v = true ->
      fst (_prevalLoader h1 content1 resource options w1) = output_fragment v
      /\ fst (_prevalLoader h2 content2 resource options w2)
         = output_fragment v).
Proof.
  intros H1 H2.
  rewrite (run_resolved h1 content1 resource options w1 v H1).
  rewrite (run_resolved h2 content2 resource options w2 v H2).
  cbn [fst]. split.
  - intros fragment. unfold isSerializable.
    destruct (find_offence v) as [[p why] |]; [| reflexivity].
    split; discriminate.
  - intros Hdata.
    now rewrite (data_serializable h1 resource v Hdata),
      (data_serializable h2 resource v Hdata).
Qed.

Lemma same_value_same_fragment_witness :
  let h := host_exporting (VPromise true sample_data) in
  let first := _prevalLoader h "" "/app/data.preval.ts" default_options
                 fresh_world in
  let second := _prevalLoader h "" "/app/data.preval.ts" default_options
                  (snd first) in
  resolves_to h "/app/data.preval.ts" default_options sample_data
  /\ exists fragment,
      fst first = Normal fragment /\ fst second = Normal fragment.
Proof.
  cbv zeta.
  assert (Hres : resolves_to (host_exporting (VPromise true sample_data))
                   "/app/data.preval.ts" default_options sample_data).
  { exists (VRecord [("default", VPromise true sample_data)]),
      (VPromise true sample_data).
    repeat split. }
  split; [exact Hres |].
  destruct (data_has_text sample_data eq_refl) as [t Ht].
  exists ("module.exports = JSON.parse(" ++ QuoteJSONString t ++ ")")%string.
  assert (Hfirst : fst (_prevalLoader
                          (host_exporting (VPromise true sample_data)) ""
                          "/app/data.preval.ts" default_options fresh_world)
                   = Normal ("module.exports = JSON.parse("
                             ++ QuoteJSONString t ++ ")")%string).
  { rewrite (run_resolved _ _ _ _ _ _ Hres). cbn [fst].
    rewrite (data_serializable _ _ sample_data eq_refl).
    now apply output_fragment_text. }
  split; [exact Hfirst |].
  apply (proj1 (same_value_same_fragment
                  (host_exporting (VPromise true sample_data))
                  (host_exporting (VPromise true sample_data))
                  "" "" "/app/data.preval.ts" default_options fresh_world
                  (snd (_prevalLoader
                          (host_exporting (VPromise true sample_data)) ""
                          "/app/data.preval.ts" default_options fresh_world))
                  sample_data Hres Hres)).
  exact Hfirst.
Defined.

Example key_order_is_kept :
  SerializeJSONProperty (VRecord [("b", VNull); ("a", VNull)])
  = Normal (Some ("{" ++ QuoteJSONString "b" ++ ":null,"
                  ++ QuoteJSONString "a" ++ ":null}")).
Proof. reflexivity. Qed.

(** ** The webpack loader *)

(** X1.  When webpack hands out a callback, [loader] marks the module as
    not cacheable.  If reading the options throws, it throws that error
    at once and calls nothing.  Otherwise it returns at once and calls
    the callback with [null] and the fragment when [_prevalLoader]
    returns one, with the error alone when it raises one.  It calls the
    callback a second time exactly when the call with the fragment
    throws, and then with what that call threw; what the last call
    throws is a rejection that nothing handles. *)
Theorem loader_calls_back_once_or_twice
  (h : host) (this : LoaderContext) (content : string) (w : world) :
  async_callback this = true ->
  let '(returned, effects, w') := loader h this content w in
  cacheable effects = Some false
  /\ match getOptions this with
     | Throw e =>
         returned = Throw e /\ callback_calls effects = [] /\ w' = w
     | Normal options =>
         let run := _prevalLoader h content (resourcePath this) options w in
         returned = Normal tt
         /\ w' = snd run
         /\ match fst run with
            | Normal fragment =>
                let first := [VNull; VStr fragment] in
                match callback this [] first with
                | Normal _ =>
                    callback_calls effects = [first]
                    /\ unhandled_rejection effects = None
                | Throw e =>
                    callback_calls effects = [first; [e]]
                    /\ unhandled_rejection effects
                       = match callback this [first] [e] with
                         | Throw e' => Some e'
                         | Normal _ => None
                         end
                end
            | Throw e =>
                callback_calls effects = [[e]]
                /\ unhandled_rejection effects
                   = match callback this [] [e] with
                     | Throw e' => Some e'
                     | Normal _ => None
                     end
            end
     end.
Proof.
  intros Hasync. unfold loader. rewrite Hasync. cbn [negb].
  destruct (getOptions this) as [options | e0]; [| now repeat split].
  unfold promise_catch, promise_then, call_callback.
  destruct (_prevalLoader h content (resourcePath this) options w)
    as [[fragment | e] w']; cbn [fst snd app].
  - destruct (callback this [] [VNull; VStr fragment]) as [[] | e]; cbn.
    + now repeat split.
    + destruct (callback this [[VNull; VStr fragment]] [e]); now repeat split.
  - destruct (callback this [] [e]); now repeat split.
Qed.

Lemma loader_calls_back_once_or_twice_witness :
  async_callback throwing_context = true
  /\ let '(returned, effects, w') :=
       loader (host_exporting sample_data) throwing_context "" fresh_world in
     returned = Normal tt
     /\ (exists fragment,
           callback_calls effects
           = [[VNull; VStr fragment]; [downstream_error]])
     /\ unhandled_rejection effects = None
     /\ registration w' = None.
Proof.
  split; [reflexivity |].
  pose proof (loader_calls_back_once_or_twice (host_exporting sample_data)
                throwing_context "" fresh_world eq_refl) as H.
  destruct (loader (host_exporting sample_data) throwing_context ""
              fresh_world) as [[returned effects] w'] eqn:E.
  destruct H as (_ & Hreturned & Hworld & Hcalls).
  cbv zeta in Hcalls.
  split; [exact Hreturned |].
  split; [eexists; exact (proj1 Hcalls) |].
  split; [exact (proj2 Hcalls) |].
  rewrite Hworld. reflexivity.
Defined.

(** X2.  When webpack hands out no callback, [loader] throws a
    [PrevalError] at once, after marking the module as not cacheable; it
    registers no transform, evaluates nothing, writes nothing and calls
    no callback. *)
Theorem loader_without_async_throws
  (h : host) (this : LoaderContext) (content : string) (w : world) :
  async_callback this = false ->
  let '(returned, effects, w') := loader h this content w in
  (exists e, returned = Throw e
             /\ is_PrevalError e = true
             /\ message_of e = async_unsupported_message)
  /\ cacheable effects = Some false
  /\ callback_calls effects = []
  /\ w' = w.
Proof.
  intros Hasync. unfold loader. rewrite Hasync. cbn [negb].
  repeat split. eexists. repeat split.
Qed.

Lemma loader_without_async_throws_witness :
  async_callback sync_context = false
  /\ let '(returned, effects, w') :=
       loader (host_exporting sample_data) sync_context "" fresh_world in
     (exists e, returned = Throw e
                /\ is_PrevalError e = true
                /\ message_of e = async_unsupported_message)
     /\ cacheable effects = Some false
     /\ callback_calls effects = []
     /\ w' = fresh_world.
Proof.
  split; [reflexivity |].
  exact (loader_without_async_throws (host_exporting sample_data) sync_context
           "" fresh_world eq_refl).
Defined.

(** ** The registered plugin *)

(** X3.  The alias plugin is registered exactly when the configuration
    loads: once [loadConfig] has returned, the plugin list has one entry
    if the result is not of type "failed" and none if it is. *)
Theorem plugin_iff_config_loaded
  (h : host) (exts : list string) (configLoaderResult : ConfigLoaderResult) :
  loadConfig h = Normal configLoaderResult ->
  length (plugins (transform_options h exts))
  = if String.eqb (resultType configLoaderResult) "failed" then 0 else 1.
Proof.
  intros Hloaded.
  unfold transform_options, moduleResolver, configLoaderSuccessResult.
  rewrite Hloaded.
  destruct (String.eqb (resultType configLoaderResult) "failed"); reflexivity.
Qed.

Lemma plugin_iff_config_loaded_witness :
  loadConfig host_no_alias = Normal empty_config
  /\ length (plugins (transform_options host_no_alias defaultExtensions)) = 1.
Proof.
  split; [reflexivity |].
  exact (plugin_iff_config_loaded host_no_alias defaultExtensions empty_config
           eq_refl).
Defined.

(** X4.  In a run that gets as far as registering the transform, a
    plugin that is registered is the module resolver; it carries the
    extensions that are registered with the transform, and its
    [resolvePath] always has a matcher, the one made from the base URL
    and the paths of the configuration: the branch of [resolvePath]
    without a matcher is never taken by a registered plugin. *)
Theorem registered_plugin_has_matcher
  (h : host) (exts : list string) (name : string) (popts : ResolverOptions) :
  load_aliases h = Normal tt ->
  In (name, popts) (plugins (transform_options h exts)) ->
  name = "module-resolver"
  /\ resolver_extensions popts = exts
  /\ extensions_of (transform_options h exts) = exts
  /\ exists file base absoluteBaseUrl paths matcher,
      loadConfig h
      = Normal (ConfigLoaderSuccessResult file base absoluteBaseUrl paths)
      /\ createMatchPath h absoluteBaseUrl paths = Normal matcher
      /\ matchPath h = Some matcher
      /\ resolvePath_of popts = resolvePath h exts (Some matcher).
Proof.
  unfold load_aliases, transform_options, moduleResolver, matchPath,
    configLoaderSuccessResult. cbn [plugins extensions_of].
  destruct (loadConfig h) as [[msg | file base abs paths] | e]; cbn;
    intros Hcfg Hin; try contradiction.
  destruct (createMatchPath h abs paths) as [matcher | e] eqn:Hmatcher;
    [| discriminate Hcfg].
  destruct Hin as [H | []]. injection H as <- <-. cbn.
  repeat split. exists file, base, abs, paths, matcher.
  rewrite Hmatcher. repeat split.
Qed.

Lemma registered_plugin_has_matcher_witness :
  load_aliases host_aliased = Normal tt
  /\ exists popts,
      In ("module-resolver", popts)
        (plugins (transform_options host_aliased defaultExtensions))
      /\ resolver_extensions popts = defaultExtensions
      /\ matchPath host_aliased = Some no_match.
Proof.
  split; [reflexivity |].
  eexists. split; [left; reflexivity |].
  destruct (registered_plugin_has_matcher host_aliased defaultExtensions
              "module-resolver" _ eq_refl (or_introl eq_refl))
    as (_ & Hexts & _ & file & base & abs & paths & matcher & _ & _ & _ & _).
  split; [exact Hexts | reflexivity].
Defined.

(** X5.  [resolvePath] raises an error only when the default strategy
    raises it: an error of the alias matcher never gets out. *)
Theorem resolvePath_raises_only_default_errors
  (h : host) (exts : list string) (matcher : option MatchPath)
  (sourcePath currentFile : string) (opts e : jsval) :
  resolvePath h exts matcher sourcePath currentFile opts = Throw e ->
  defaultResolvePath h sourcePath currentFile opts = Throw e.
Proof.
  unfold resolvePath. destruct matcher as [mp |]; [| auto].
  destruct (mp sourcePath (readJson h) (fileExists h) exts); [discriminate | auto].
Qed.

Lemma resolvePath_raises_only_default_errors_witness :
  resolvePath host_strict defaultExtensions (matchPath host_strict)
    "@lib/x" "/app/page.ts" VUndefined
  = Throw (TypeError "cannot resolve")
  /\ defaultResolvePath host_strict "@lib/x" "/app/page.ts" VUndefined
     = Throw (TypeError "cannot resolve").
Proof.
  split; [reflexivity |].
  apply (resolvePath_raises_only_default_errors host_strict defaultExtensions
           (matchPath host_strict) "@lib/x" "/app/page.ts" VUndefined).
  reflexivity.
Defined.

(** ** What a run writes and raises *)

Lemma evaluate_writes_at_most_one_line
  (h : host) (resource : string) (w : world) :
  exists lines,
    stderr (snd (evaluate h resource w)) = (stderr w ++ lines)%list
    /\ length lines <= 1
    /\ (forall data, fst (evaluate h resource w) = Normal data -> lines = []).
Proof.
  unfold evaluate, try_catch_finally, bind, lift, throw, ret, revert,
    console_error.
  branch;
    first [ exists []; rewrite List.app_nil_r;
            split; [reflexivity | split; [cbn; lia | reflexivity]]
          | eexists [_]; split; [reflexivity |];
            split; [cbn; lia | intros; discriminate]
          | exists []; rewrite List.app_nil_r;
            split; [reflexivity | split; [cbn; lia | intros; discriminate]] ].
Qed.

(** X6.  In one run the loader itself calls [console.error] at most
    once, and not at all in a run that returns a fragment: the lines
    that [stderr] records, those the loader writes, grow by at most one.
    (What the evaluated module or the transform write is theirs and is
    not recorded.) *)
Theorem run_logs_at_most_once
  (h : host) (content resource : string) (options : PrevalLoaderOptions)
  (w : world) :
  exists lines,
    stderr (snd (_prevalLoader h content resource options w))
    = (stderr w ++ lines)%list
    /\ length lines <= 1
    /\ (forall fragment,
          fst (_prevalLoader h content resource options w) = Normal fragment ->
          lines = []).
Proof.
  unfold _prevalLoader, bind, lift, register.
  destruct (load_aliases h) as [[] | e0];
    [| exists []; rewrite List.app_nil_r;
       split; [reflexivity | split; [cbn; lia | reflexivity]]].
  match goal with
  | |- context [evaluate h resource ?w1] =>
      destruct (evaluate_writes_at_most_one_line h resource w1)
        as (lines & Hlines & Hlen & Hnone);
      destruct (evaluate h resource w1) as [[data | e] w2]
  end; cbn [fst snd stderr] in *; exists lines.
  - destruct (isSerializable h resource data); cbn [fst snd].
    + split; [exact Hlines | split; [exact Hlen |]].
      intros _ _. exact (Hnone data eq_refl).
    + split; [exact Hlines | split; [exact Hlen | intros; discriminate]].
  - split; [exact Hlines | split; [exact Hlen | intros; discriminate]].
Qed.

Lemma get_of_record (v : jsval) (key : string) :
  isRecord v = true -> exists x, get v key = Normal x.
Proof.
  destruct v; try discriminate; intros _; cbn; eauto.
  branch; eauto.
Qed.

(** X7.  Whatever goes wrong while the target module is compiled, run or
    awaited, the failure itself never leaves the [try] block: what is
    raised is a [PrevalError] with the message "Failed to pre-evaluate"
    for the resource (the missing default export included), or else the
    error of converting the failure to a string. *)
Theorem evaluation_errors_are_wrapped
  (h : host) (resource : string) (w : world) (e : jsval) :
  fst (evaluate h resource w) = Throw e ->
  (exists description,
      e = new_error h PrevalError (failure_message resource description))
  \/ (exists failure, ToString failure = Throw e).
Proof.
  unfold evaluate, try_catch_finally, bind, lift, throw, ret, revert,
    console_error.
  branch; intros H; try discriminate H; injection H as <-;
    try solve [ left; eexists; reflexivity
              | right; eexists; eassumption ];
    exfalso;
    match goal with
    | Hrec : isRecord ?x && _ = true, Hget : get ?x "stack" = Throw _ |- _ =>
        apply andb_prop in Hrec as [Hrec _];
        destruct (get_of_record x "stack" Hrec) as [t Ht]; congruence
    end.
Qed.

Lemma evaluation_errors_are_wrapped_witness :
  fst (evaluate host_rejecting "/app/data.preval.ts" fresh_world)
  = Throw (new_error host_rejecting PrevalError
             (failure_message "/app/data.preval.ts" "boom"))
  /\ ((exists description,
          new_error host_rejecting PrevalError
            (failure_message "/app/data.preval.ts" "boom")
          = new_error host_rejecting PrevalError
              (failure_message "/app/data.preval.ts" description))
      \/ (exists failure,
            ToString failure
            = Throw (new_error host_rejecting PrevalError
                       (failure_message "/app/data.preval.ts" "boom")))).
Proof.
  split; [reflexivity |].
  apply (evaluation_errors_are_wrapped host_rejecting "/app/data.preval.ts"
           fresh_world).
  reflexivity.
Defined.

(** ** What a returned fragment stands for *)

Lemma run_returns_inversion
  (h : host) (content resource : string) (options : PrevalLoaderOptions)
  (w : world) (fragment : string) :
  fst (_prevalLoader h content resource options w) = Normal fragment ->
  exists v,
    resolves_to h resource options v
    /\ isSerializable h resource v = Normal tt
    /\ output_fragment v = Normal fragment.
Proof.
  unfold _prevalLoader, evaluate, try_catch_finally, bind, lift, throw, ret,
    revert, console_error, register, resolves_to, loads. cbn.
  destruct (load_aliases h) as [[] | e0] eqn:Hcfg; cbn; [| discriminate].
  destruct (requireFromString h _ _ _) as [m | e0] eqn:Hload; cbn.
  - destruct (get m "default") as [d | e0] eqn:Hget; cbn.
    + destruct (truthy d) eqn:Ht; cbn.
      * destruct (await d) as [v | e0] eqn:Haw; cbn.
        -- destruct (isSerializable h resource v) as [[] |] eqn:Hser; cbn;
             [| discriminate].
           intros Hout. exists v. split; [| auto]. exists m, d. auto.
        -- branch; discriminate.
      * discriminate.
    + branch; discriminate.
  - branch; discriminate.
Qed.

(** X8.  A fragment is returned only for a module that loads under the
    registered transform and whose truthy default export settles to a
    value that the validator accepts; the fragment is the encoding of
    that value. *)
Theorem fragment_comes_from_accepted_value
  (h : host) (content resource : string) (options : PrevalLoaderOptions)
  (w : world) (fragment : string) :
  fst (_prevalLoader h content resource options w) = Normal fragment ->
  exists v,
    resolves_to h resource options v
    /\ isSerializable h resource v = Normal tt
    /\ output_fragment v = Normal fragment.
Proof. apply run_returns_inversion. Qed.

Lemma fragment_comes_from_accepted_value_witness :
  exists fragment,
    fst (_prevalLoader (host_exporting (VPromise true sample_data)) ""
           "/app/data.preval.ts" default_options fresh_world)
    = Normal fragment
    /\ exists v,
        resolves_to (host_exporting (VPromise true sample_data))
          "/app/data.preval.ts" default_options v
        /\ isSerializable (host_exporting (VPromise true sample_data))
             "/app/data.preval.ts" v = Normal tt
        /\ output_fragment v = Normal fragment.
Proof.
  eexists. split; [reflexivity |].
  apply (fragment_comes_from_accepted_value
           (host_exporting (VPromise true sample_data)) ""
           "/app/data.preval.ts" default_options fresh_world).
  reflexivity.
Defined.

(** ** What a run depends on *)

(** X11.  The target module is loaded only while the transform is
    registered: what loading would give with no transform registered has
    no bearing on a run. *)
Theorem module_loads_only_under_the_transform
  (h : host) (outcome : completion jsval) (content resource : string)
  (options : PrevalLoaderOptions) (w : world) :
  _prevalLoader (with_unregistered_outcome h outcome) content resource
    options w
  = _prevalLoader h content resource options w.
Proof. reflexivity. Qed.

(** ** The synthesized program *)

(** X12.  The program handed to [requireFromString] requires exactly the
    resource: whatever characters the path holds (quotes, backslashes,
    line breaks), reading the literal of the program gives the path
    back. *)
Theorem synthesized_source_requires_the_resource (resource : string) :
  required_path (synthesized_source resource) = Some resource.
Proof.
  unfold required_path, synthesized_source.
  change ("require('next');" ++ LF ++ "module.exports = require("
          ++ QuoteJSONString resource ++ ")")%string
    with (("require('next');" ++ LF ++ "module.exports = require(")
          ++ (QuoteJSONString resource ++ ")"))%string.
  rewrite strip_prefix_append.
  unfold QuoteJSONString. cbn [append]. rewrite Ascii.eqb_refl.
  rewrite append_assoc. cbn [append].
  rewrite read_quote_body. reflexivity.
Qed.

(** ** The text of a fragment *)

Lemma no_C0_control_append (a b : string) :
  no_C0_control (a ++ b) = no_C0_control a && no_C0_control b.
Proof.
  induction a as [| c a IH]; cbn [append no_C0_control]; [reflexivity |].
  now rewrite IH, andb_assoc.
Qed.

Lemma no_C0_control_escape_char (c : ascii) :
  no_C0_control (escape_char c) = true.
Proof. destruct c as [[|] [|] [|] [|] [|] [|] [|] [|]]; reflexivity. Qed.

Lemma hex_digit_printable (n : N) :
  negb (N_of_ascii (hex_digit n) <? 32)%N = true.
Proof.
  unfold hex_digit.
  repeat match goal with
         | |- context [match ?x with _ => _ end] => destruct x
         end; reflexivity.
Qed.

Lemma no_C0_control_unicode_escape (u : N) :
  no_C0_control (unicode_escape u) = true.
Proof.
  unfold unicode_escape. cbn [no_C0_control].
  rewrite !hex_digit_printable. reflexivity.
Qed.

Lemma high_byte_is_no_control (c : ascii) :
  (128 <=? N_of_ascii c)%N = true -> negb (N_of_ascii c <? 32)%N = true.
Proof.
  intros H. apply N.leb_le in H. apply negb_true_iff, N.ltb_ge. lia.
Qed.

Lemma no_C0_control_quote_body (n : nat) :
  forall s, String.length s <= n -> no_C0_control (quote_body s) = true.
Proof.
  induction n as [| n IH]; intros s Hlen.
  - destruct s; [reflexivity | cbn in Hlen; lia].
  - destruct s as [| c s1]; [reflexivity |].
    cbn [String.length] in Hlen.
    assert (Hplain : no_C0_control (escape_char c ++ quote_body s1) = true)
      by (rewrite no_C0_control_append, no_C0_control_escape_char, IH by lia;
          reflexivity).
    destruct s1 as [| b2 [| b3 s3]]; try exact Hplain.
    cbn [quote_body].
    destruct (is_surrogate c b2 b3) eqn:Hs; [| exact Hplain].
    cbn [String.length] in Hlen.
    assert (Hlone : no_C0_control
                      (unicode_escape (surrogate_unit b2 b3) ++ quote_body s3)
                    = true)
      by (rewrite no_C0_control_append, no_C0_control_unicode_escape, IH by lia;
          reflexivity).
    destruct s3 as [| c4 [| b5 [| b6 s6]]]; try exact Hlone.
    destruct (is_leading b2 && is_surrogate c4 b5 b6 && negb (is_leading b5))
      eqn:Hpair; [| exact Hlone].
    apply andb_true_iff in Hpair as [Hpair _].
    apply andb_true_iff in Hpair as [_ Hs'].
    destruct (surrogate_bytes c b2 b3 Hs) as (-> & [H2 _] & [H3 _]).
    destruct (surrogate_bytes c4 b5 b6 Hs') as (-> & [H5 _] & [H6 _]).
    assert (Hhigh : forall b, (160 <=? N_of_ascii b)%N = true ->
                              (128 <=? N_of_ascii b)%N = true).
    { intros b Hb. apply N.leb_le in Hb. apply N.leb_le. lia. }
    cbn [no_C0_control String.length] in *.
    rewrite !high_byte_is_no_control by auto.
    rewrite IH by lia. reflexivity.
Qed.

Lemma no_C0_control_QuoteJSONString (s : string) :
  no_C0_control (QuoteJSONString s) = true.
Proof.
  unfold QuoteJSONString. cbn [no_C0_control].
  rewrite no_C0_control_append, (no_C0_control_quote_body _ s (le_n _)).
  reflexivity.
Qed.

(** X13.  Whatever the data holds (line breaks and other control
    characters in strings and keys), the fragment that is returned holds
    no control character from U+0000 to U+001F as it is: no raw line
    feed, carriage return or tab breaks or bends the line of source. *)
Theorem fragment_holds_no_C0_control (data : jsval) (fragment : string) :
  output_fragment data = Normal fragment ->
  no_C0_control fragment = true.
Proof.
  intros H.
  destruct (SerializeJSONProperty data) as [[t |] | e] eqn:E.
  - rewrite (output_fragment_text data t E) in H.
    assert (Hfragment : fragment
                        = ("module.exports = JSON.parse("
                           ++ QuoteJSONString t ++ ")")%string)
      by congruence.
    rewrite Hfragment, !no_C0_control_append, no_C0_control_QuoteJSONString.
    reflexivity.
  - unfold output_fragment, JSON_stringify in H. rewrite E in H.
    cbn in H. injection H as <-. reflexivity.
  - unfold output_fragment, JSON_stringify in H. rewrite E in H.
    discriminate H.
Qed.

Lemma fragment_holds_no_C0_control_witness :
  let data := VRecord [(String "010" "key", VStr (String "013" (String "010" "text")))] in
  exists fragment,
    output_fragment data = Normal fragment /\ no_C0_control fragment = true.
Proof.
  cbv zeta. eexists. split; [reflexivity |].
  apply (fragment_holds_no_C0_control
           (VRecord [(String "010" "key",
                      VStr (String "013" (String "010" "text")))])).
  reflexivity.
Defined.

(** X14.  Evaluating a fragment is parsing what [JSON.stringify] gives
    for the data: for every value that has a JSON text, the literal in
    its fragment reads back as that text, so the fragment decodes to
    whatever [JSON.parse] makes of it. *)
Theorem fragment_is_parse_of_stringify (data : jsval) (text : string) :
  JSON_stringify data = Normal (VStr text) ->
  exists fragment,
    output_fragment data = Normal fragment
    /\ decode_fragment fragment = JSON_parse text.
Proof.
  unfold JSON_stringify. intros H.
  destruct (SerializeJSONProperty data) as [[t |] | e] eqn:E;
    try discriminate H.
  injection H as ->.
  exists ("module.exports = JSON.parse(" ++ QuoteJSONString text ++ ")")%string.
  split; [now apply output_fragment_text | apply decode_quoted].
Qed.

Lemma fragment_is_parse_of_stringify_witness :
  let data := VRecord [("at", VError (NativeError "Error") "x" None);
                       ("n", VNum NaN)] in
  exists text fragment,
    JSON_stringify data = Normal (VStr text)
    /\ output_fragment data = Normal fragment
    /\ decode_fragment fragment = JSON_parse text
    /\ JSON_parse text = Some (VRecord [("at", VRecord []); ("n", VNull)]).
Proof.
  cbv zeta. eexists.
  destruct (fragment_is_parse_of_stringify
              (VRecord [("at", VError (NativeError "Error") "x" None);
                        ("n", VNum NaN)]) _ eq_refl)
    as (fragment & Hout & Hdecode).
  exists fragment. split; [reflexivity |].
  split; [exact Hout | split; [exact Hdecode | reflexivity]].
Defined.

(** X15.  A value with no JSON text of its own ([undefined], a function,
    a symbol) turns, on the last line, into a fragment that passes the
    word [undefined] to [JSON.parse] and decodes to nothing. *)
Theorem fragment_of_undefined_does_not_decode (data : jsval) :
  JSON_stringify data = Normal VUndefined ->
  output_fragment data = Normal "module.exports = JSON.parse(undefined)"
  /\ decode_fragment "module.exports = JSON.parse(undefined)" = None.
Proof.
  intros H. unfold output_fragment. rewrite H. split; reflexivity.
Qed.

Lemma fragment_of_undefined_does_not_decode_witness :
  JSON_stringify (VFunction "() => 1") = Normal VUndefined
  /\ output_fragment (VFunction "() => 1")
     = Normal "module.exports = JSON.parse(undefined)".
Proof.
  split; [reflexivity |].
  apply (fragment_of_undefined_does_not_decode (VFunction "() => 1")).
  reflexivity.
Defined.

(** ** The line written for a missing default export *)

(** X17.  For a default export that is missing or falsy, the loader
    writes one line: the tag and the stack of the inner error, which
    opens with "Error: No default export"; the error it raises wraps
    that inner error's printed form in the "Failed to pre-evaluate"
    message of the resource. *)
Theorem missing_default_export_is_logged
  (h : host) (content resource : string) (options : PrevalLoaderOptions)
  (w : world) (mod_ default_ : jsval) :
  loads h resource options mod_ ->
  get mod_ "default" = Normal default_ ->
  truthy default_ = false ->
  stderr (snd (_prevalLoader h content resource options w))
  = (stderr w
     ++ [[VStr diagnostic_tag;
          VStr ("Error: " ++ missing_default_message ++ stack_frames h)]])%list
  /\ fst (_prevalLoader h content resource options w)
     = Throw (new_error h PrevalError
                (failure_message resource
                   ("Error: " ++ missing_default_message))).
Proof.
  intros Hload Hget Hfalsy.
  rewrite (run_falsy h content resource options w mod_ default_
             Hload Hget Hfalsy).
  split; reflexivity.
Qed.

Lemma missing_default_export_is_logged_witness :
  let h := host_exporting VNull in
  loads h "/app/data.preval.ts" default_options (VRecord [("default", VNull)])
  /\ stderr (snd (_prevalLoader h "" "/app/data.preval.ts" default_options
                    fresh_world))
     = [[VStr diagnostic_tag;
         VStr ("Error: " ++ missing_default_message ++ stack_frames h)]].
Proof.
  cbv zeta. split; [run_host |].
  apply (missing_default_export_is_logged (host_exporting VNull) ""
           "/app/data.preval.ts" default_options fresh_world
           (VRecord [("default", VNull)]) VNull); run_host.
Defined.
